(** * langchain-demo: the feedback protocol, the stores and the CLI flags

    A shallow embedding of the repository's own logic:
    - [FeedbackService] (parseUserFeedback, convertStarRatingToScore,
      generateUUID, getRunIdFromContext, collectFeedback, getStarEmoji,
      processUserFeedback),
    - the stores ([ConversationStore], [AuthStore] over [PersistentStorage],
      with messageUtils.js),
    - [CLIInterface.processUserInput] and the feedback dialogue,
    - [ConversationManager] (saving, restoring, clearing) and the thread
      commands ([switchToSpecificThread], [ThreadManager.saveToLocalStore],
      [createThread]).

    JavaScript strings are sequences of UTF-16 code units and are modelled as
    [list Z]; [null]/[undefined] are [None]; a rejected promise or a [throw]
    is the [Throw] case of a result type.  Calls that leave the repository
    (the clock, [Math.random], the LangSmith client, the workflow engine, the
    file system) are read from an explicit record of outcomes. *)

From Stdlib Require Import ZArith QArith Floats Uint63 String Ascii List Lia Bool.
From stdpp Require Import base option list gmap.

Local Open Scope Z_scope.

(* ===================================================================== *)
(** * JavaScript strings                                                  *)
(* ===================================================================== *)

Module Js.

(** A string is the list of its UTF-16 code units. *)
Abbreviation str := (list Z).

(** An ASCII literal as a JavaScript string. *)
Definition lit (s : string) : str :=
  (λ a, Z.of_nat (nat_of_ascii a)) <$> list_ascii_of_string s.

(** ECMAScript LineTerminator: LF, CR, LS, PS. *)
Definition is_line_terminator (c : Z) : bool :=
  (c =? 10) || (c =? 13) || (c =? 8232) || (c =? 8233).

(** ECMAScript WhiteSpace: TAB, VT, FF, SP, NBSP, ZWNBSP and category Zs. *)
Definition is_white_space (c : Z) : bool :=
  (c =? 9) || (c =? 11) || (c =? 12) || (c =? 32) || (c =? 160)
  || (c =? 5760) || ((8192 <=? c) && (c <=? 8202))
  || (c =? 8239) || (c =? 8287) || (c =? 12288) || (c =? 65279).

(** What [\s] matches and what [String.prototype.trim] strips. *)
Definition is_space (c : Z) : bool :=
  is_white_space c || is_line_terminator c.

(** [\d] (no [u] flag): the ASCII digits. *)
Definition is_digit (c : Z) : bool := (48 <=? c) && (c <=? 57).

(** [.] (no [s] flag): anything but a line terminator. *)
Definition is_dot (c : Z) : bool := negb (is_line_terminator c).

Fixpoint drop_spaces (s : str) : str :=
  match s with
  | c :: s' => if is_space c then drop_spaces s' else s
  | [] => []
  end.

(** [String.prototype.trim]. *)
Definition trim (s : str) : str :=
  rev (drop_spaces (rev (drop_spaces s))).

(** Truthiness of a value that is a string, [null] or [undefined]. *)
Definition truthy (v : option str) : bool :=
  match v with
  | Some (_ :: _) => true
  | _ => false
  end.

(** [v || d] for such a value and a string default. *)
Definition or_else (v : option str) (d : str) : str :=
  if truthy v then default d v else d.

(** [v || null]. *)
Definition or_null (v : option str) : option str :=
  if truthy v then v else None.

Fixpoint digits_value (acc : Z) (s : str) : Z :=
  match s with
  | c :: s' => if is_digit c then digits_value (10 * acc + (c - 48)) s' else acc
  | [] => acc
  end.

(** [parseInt] on a string that starts with neither white space, a sign nor
    a radix prefix (every call site passes a [\d] capture): the value of the
    leading decimal digits, [None] standing for [NaN]. *)
Definition parseInt (s : str) : option Z :=
  match s with
  | c :: _ => if is_digit c then Some (digits_value 0 s) else None
  | [] => None
  end.

(** Canonicalisation of the [i] flag without the [u] flag: a code unit is
    compared through its upper-case form, and a code unit of 128 or more is
    never folded onto an ASCII one, so that an ASCII letter of a pattern
    matches exactly its two ASCII cases. *)
Definition canonicalize (c : Z) : Z :=
  if (97 <=? c) && (c <=? 122) then c - 32 else c.

(** [s.startsWith(p)] *)
Fixpoint starts_with (p s : str) : bool :=
  match p, s with
  | [], _ => true
  | a :: p', b :: s' => (a =? b) && starts_with p' s'
  | _ :: _, [] => false
  end.

(** [s.includes(p)] *)
Fixpoint includes (s p : str) : bool :=
  starts_with p s ||
  match s with
  | _ :: s' => includes s' p
  | [] => false
  end.

(** [Number.prototype.toString()] of an integer. *)
Definition of_int (n : Z) : str := lit (pretty.pretty n).

End Js.

(* ===================================================================== *)
(** * Regular expressions, as the backtracking matcher runs them          *)
(* ===================================================================== *)

Module Regex.

(** The fragment of the pattern syntax the repository uses.  [Star] is the
    greedy [*] applied to an atom that matches one code unit, which is the
    only way the patterns use it. *)
Inductive regex : Type :=
| Chr (p : Z → bool)             (* a literal, a class, [\d], [\s] or [.] *)
| Eps                            (* the empty pattern *)
| Seq (r1 r2 : regex)
| Alt (r1 r2 : regex)            (* r1|r2, r1 tried first *)
| Star (p : Z → bool)            (* c*, greedy *)
| Group (n : nat) (r : regex)    (* the n-th capturing group *)
| Bol                            (* ^ without the m flag *)
| Eol.                           (* $ without the m flag *)

Abbreviation captures := (gmap nat Js.str).
Abbreviation cont := (Js.str → captures → option captures).

(** [c*] followed by [k]: the longest run first, then one shorter, ... *)
Fixpoint star_loop (p : Z → bool) (k : cont) (s : Js.str) (c : captures)
  : option captures :=
  match s with
  | x :: s' =>
      if p x then
        match star_loop p k s' c with
        | Some res => Some res
        | None => k s c
        end
      else k s c
  | [] => k s c
  end.

(** [run inp r k s c]: match [r] at the suffix [s] of the input [inp] with
    captures [c], then continue with [k]; [None] is failure, on which the
    caller backtracks. *)
Fixpoint run (inp : Js.str) (r : regex) (k : cont) (s : Js.str) (c : captures)
  : option captures :=
  match r with
  | Chr p =>
      match s with
      | x :: s' => if p x then k s' c else None
      | [] => None
      end
  | Eps => k s c
  | Seq r1 r2 => run inp r1 (run inp r2 k) s c
  | Alt r1 r2 =>
      match run inp r1 k s c with
      | Some res => Some res
      | None => run inp r2 k s c
      end
  | Star p => star_loop p k s c
  | Group n r =>
      run inp r (λ s' c', k s' (<[n := take (length s - length s') s]> c')) s c
  | Bol => if decide (length s = length inp) then k s c else None
  | Eol => match s with [] => k s c | _ :: _ => None end
  end.

Definition accept : cont := λ _ c, Some c.

(** The start positions, from the left. *)
Fixpoint search (inp : Js.str) (r : regex) (s : Js.str) : option captures :=
  match run inp r accept s ∅ with
  | Some c => Some c
  | None =>
      match s with
      | _ :: s' => search inp r s'
      | [] => None
      end
  end.

(** [RegExp.prototype.exec] of a pattern without the [g] flag, and so
    [String.prototype.match]: the captures of the leftmost match. *)
Definition exec (r : regex) (inp : Js.str) : option captures :=
  search inp r inp.

(** [RegExp.prototype.test]. *)
Definition test (r : regex) (inp : Js.str) : bool :=
  bool_decide (is_Some (exec r inp)).

(** ** Pattern syntax *)

(** [r?], greedy. *)
Definition Opt (r : regex) : regex := Alt r Eps.
(** [c+], greedy. *)
Definition Plus (p : Z → bool) : regex := Seq (Chr p) (Star p).
(** [r{n}]. *)
Fixpoint Rep (n : nat) (r : regex) : regex :=
  match n with
  | O => Eps
  | S n' => Seq r (Rep n' r)
  end.
(** One literal code unit, and the same under the [i] flag. *)
Definition Lit (c : Z) : regex := Chr (Z.eqb c).
Definition is_ci (c : Z) : Z → bool :=
  λ x, Js.canonicalize x =? Js.canonicalize c.
Definition LitI (c : Z) : regex := Chr (is_ci c).
(** A literal word under the [i] flag. *)
Fixpoint WordI (w : Js.str) : regex :=
  match w with
  | [] => Eps
  | c :: w' => Seq (LitI c) (WordI w')
  end.

(** ** What a match can capture *)

(** Every captured text is made of code units of the input. *)
Definition caps_in (inp : Js.str) (c : captures) : Prop :=
  ∀ n g, c !! n = Some g → g ⊆ inp.

(** A continuation that keeps it so. *)
Definition ksound (inp : Js.str) (k : cont) : Prop :=
  ∀ s c res, s ⊆ inp → caps_in inp c → k s c = Some res → caps_in inp res.

(** ** Patterns of fixed shape *)

(** The classes of a pattern that asks for one code unit after the other
    (single code units, sequences and so [r{n}]); [None] for the others. *)
Fixpoint classes (r : regex) : option (list (Z → bool)) :=
  match r with
  | Chr p => Some [p]
  | Eps => Some []
  | Seq r1 r2 =>
      ps1 ← classes r1; ps2 ← classes r2; Some (ps1 ++ ps2)
  | _ => None
  end.

(** A text that has one code unit of each class, in order. *)
Definition in_classes (ps : list (Z → bool)) (s : Js.str) : Prop :=
  Forall2 (λ p x, p x = true) ps s.

End Regex.

(* ===================================================================== *)
(** * FeedbackService: parsing and scoring                                *)
(* ===================================================================== *)

Module Feedback.
Import Js Regex.

Definition Cat (rs : list regex) : regex := foldr Seq Eps rs.

(** [[-–]] *)
Definition is_dash (c : Z) : bool := (c =? 45) || (c =? 8211).
(** [[\/\s]] *)
Definition is_slash_or_space (c : Z) : bool := (c =? 47) || is_space c.

(** [(?:\s*[-–]\s*(.+))?] *)
Definition dash_comment : regex :=
  Opt (Cat [Star is_space; Chr is_dash; Star is_space; Group 2 (Plus is_dot)]).

(** [(?:stars?|\/5)?] *)
Definition stars_or_5 : regex :=
  Opt (Alt (Seq (WordI (lit "star")) (Opt (LitI 115)))
           (Seq (Lit 47) (Lit 53))).

(** [/^(\d)[\/\s]*(?:stars?|\/5)?(?:\s*[-–]\s*(.+))?$/i] *)
Definition pattern1 : regex :=
  Cat [Bol; Group 1 (Chr is_digit); Star is_slash_or_space; stars_or_5;
       dash_comment; Eol].

(** [/(?:rating|score):\s*(\d)(?:\s*[-–]\s*(.+))?$/i] *)
Definition pattern2 : regex :=
  Cat [Alt (WordI (lit "rating")) (WordI (lit "score")); Lit 58;
       Star is_space; Group 1 (Chr is_digit); dash_comment; Eol].

(** [/^(\d)\s*[-–]\s*(.+)$/] *)
Definition pattern3 : regex :=
  Cat [Bol; Group 1 (Chr is_digit); Star is_space; Chr is_dash;
       Star is_space; Group 2 (Plus is_dot); Eol].

(** [/^(\d)$/] *)
Definition pattern4 : regex :=
  Cat [Bol; Group 1 (Chr is_digit); Eol].

(** The object [{ rating, comment }]. *)
Record parsed := Parsed { rating : Z; comment : str }.

(** [parseInt(match[1])]; [None] is [NaN]. *)
Definition rating_of (m : captures) : option Z := m !! 1%nat ≫= parseInt.

(** [rating >= 1 && rating <= 5], false on [NaN]. *)
Definition valid_rating (r : option Z) : bool :=
  match r with
  | Some n => (1 <=? n) && (n <=? 5)
  | None => false
  end.

(** One [if (match) { ... }] block of [parseUserFeedback]: the object it
    returns, or [None] when control falls through to the next block. *)
Definition attempt (p : regex) (comment_of : captures → str) (input : str)
  : option parsed :=
  match exec p input with
  | Some m =>
      if valid_rating (rating_of m)
      then Some (Parsed (default 0 (rating_of m)) (comment_of m))
      else None
  | None => None
  end.

(** [parseUserFeedback]; [None] is the [null] it returns last. *)
Definition parseUserFeedback (userInput : str) : option parsed :=
  let input := trim userInput in
  (* Pattern 1: "4" or "4 stars" or "4/5" *)
  match attempt pattern1 (λ m, or_else (m !! 2%nat) []) input with
  | Some res => Some res
  | None =>
  (* Pattern 2: "Rating: 4" or "Score: 3" *)
  match attempt pattern2 (λ m, or_else (m !! 2%nat) []) input with
  | Some res => Some res
  | None =>
  (* Pattern 3: "4 - Great response!"; (.+) is not optional here, so
     match[2] is a string *)
  match attempt pattern3 (λ m, default [] (m !! 2%nat)) input with
  | Some res => Some res
  | None =>
  (* Pattern 4: just a number *)
  attempt pattern4 (λ _, []) input
  end end end.


(** ** Numbers *)

(** The JavaScript number (an IEEE 754 binary64) of an integer. *)
Definition number_of_Z (n : Z) : float :=
  if n <? 0 then (- PrimFloat.of_uint63 (Uint63.of_Z (- n)))%float
  else PrimFloat.of_uint63 (Uint63.of_Z n).

(** The rational a finite number denotes. *)
Definition Q_of_number (x : float) : option Q :=
  match Prim2SF x with
  | S754_zero _ => Some 0%Q
  | S754_finite s m e =>
      Some ((if s then - inject_Z (Z.pos m) else inject_Z (Z.pos m)) * Qpower 2 e)%Q
  | _ => None
  end.

(** [convertStarRatingToScore]: [(starRating - 1) / 4] in binary64. *)
Definition convertStarRatingToScore (starRating : float) : float :=
  ((starRating - 1) / 4)%float.

(** ** Run identifiers *)

(** [/^[0-9a-f]{8}-[0-9a-f]{4}-[1-5][0-9a-f]{3}-[89ab][0-9a-f]{3}-[0-9a-f]{12}$/i] *)
Definition is_hex (c : Z) : bool :=
  is_digit c || ((65 <=? canonicalize c) && (canonicalize c <=? 70)).
Definition is_1_to_5 (c : Z) : bool := (49 <=? c) && (c <=? 53).
Definition is_89ab (c : Z) : bool :=
  (c =? 56) || (c =? 57) || (canonicalize c =? 65) || (canonicalize c =? 66).
Definition uuidRegex : regex :=
  Cat [Bol; Rep 8 (Chr is_hex); Lit 45; Rep 4 (Chr is_hex); Lit 45;
       Chr is_1_to_5; Rep 3 (Chr is_hex); Lit 45;
       Chr is_89ab; Rep 3 (Chr is_hex); Lit 45; Rep 12 (Chr is_hex); Eol].

(** [v.toString(16)] for [0 <= v < 16]. *)
Definition hex_digit (v : Z) : Z := if v <? 10 then 48 + v else 87 + v.

(** The callback of [replace(/[xy]/g, ...)] run over the template from the
    left; [rnd i] is the value of [Math.random() * 16 | 0] at its [i]-th
    call. *)
Fixpoint fill_template (tpl : str) (rnd : nat → Z) (i : nat) : str :=
  match tpl with
  | [] => []
  | c :: tpl' =>
      if c =? 120 (* x *) then
        hex_digit (rnd i) :: fill_template tpl' rnd (S i)
      else if c =? 121 (* y *) then
        hex_digit (Z.lor (Z.land (rnd i) 3) 8) :: fill_template tpl' rnd (S i)
      else c :: fill_template tpl' rnd i
  end.

(** [generateUUID] *)
Definition generateUUID (rnd : nat → Z) : str :=
  fill_template (lit "xxxxxxxx-xxxx-4xxx-yxxx-xxxxxxxxxxxx") rnd 0.

(** What one call of the service reads from outside the repository. *)
Record world := World {
  (** [process.env.LANGCHAIN_API_KEY] *)
  env_LANGCHAIN_API_KEY : option str;
  (** whether [new Client(...)] returns (it throws otherwise) *)
  Client_constructs : bool;
  (** [getCurrentRunTree()?.id], [None] when the call throws, no run tree
      is active or it has no id *)
  current_run_tree_id : option str;
  (** [Math.random() * 16 | 0] at the successive calls of one
      [generateUUID], for the [n]-th [generateUUID] *)
  random16 : nat → nat → Z;
  (** [new Date().toISOString()], [Date.now()] and
      [Math.random().toString(36).substr(2, 9)] at the [n]-th use *)
  iso_now : nat → str;
  date_now : nat → Z;
  random36 : nat → str;
}.

(** The [ThreadManager] as the service sees it. *)
Record thread_manager := ThreadManager { currentThreadId : option str }.

(** [getCurrentRunId] *)
Definition getCurrentRunId (w : world) : option str :=
  match current_run_tree_id w with
  | Some id =>
      if truthy (Some id) && test uuidRegex id then Some id else None
  | None => None
  end.

(** [getRunIdFromContext]; [n] numbers the [generateUUID] call. *)
Definition getRunIdFromContext (w : world) (n : nat)
    (threadManager : option thread_manager) : str :=
  let runId := getCurrentRunId w in
  if truthy runId then default [] runId
  else
    match threadManager with
    | Some tm =>
        if truthy (currentThreadId tm) then
          if test uuidRegex (default [] (currentThreadId tm))
          then default [] (currentThreadId tm)
          else generateUUID (random16 w n)    (* thread-linked UUID *)
        else generateUUID (random16 w n)      (* fallback UUID *)
    | None => generateUUID (random16 w n)     (* fallback UUID *)
    end.

(** ** Collecting feedback *)

(** A [throw] or a rejected promise carries an [Error] with a message. *)
Inductive outcome (A : Type) : Type :=
| Return (a : A)
| Throw (message : str).
Arguments Return {A} a.
Arguments Throw {A} message.

(** The argument [feedbackData]; [fd_starRating] is [parseInt] of the field,
    [None] when that is [NaN]. *)
Record feedback_data := FeedbackData {
  fd_starRating : option Z;
  fd_comment : option str;
  fd_key : option str;
  fd_runId : option str;
}.

(** The record [feedback]. *)
Record feedback := {
  starRating : Z;
  score : float;
  fb_comment : str;
  key : str;
  runId : str;
  timestamp : str;
  threadId : option str;
  sessionId : option str;
  conversationId : option str;
}.

(** What [createFeedback] is called with. *)
Record remote_feedback := {
  rf_runId : str;
  rf_key : str;
  rf_score : float;
  rf_value : str;
  rf_comment : str;
}.

(** How [createFeedback] settles: it resolves, [feedbackResult?.id] being
    the argument, or rejects. *)
Inductive remote_reply : Type :=
| Resolved (id : option str)
| Rejected (message : str).

(** The LangSmith client; [createFeedback] is the remote store. *)
Record client := Client {
  createFeedback : remote_feedback → remote_reply;
}.

(** The fields of the service, and the number of clock and random reads
    made so far. *)
Record service := Service {
  langsmithClient : option client;
  isInitialized : bool;
  pendingFeedback : gmap str feedback;
  reads : nat;
}.

(** [new FeedbackService()] *)
Definition new_service : service := Service None false ∅ 0.

(** The object [collectFeedback] returns. *)
Record result := {
  success : bool;
  submitted : bool;
  r_runId : option str;
  feedbackId : option str;
  localId : option str;
  r_feedback : feedback;
  error : option str;
  message : str;
}.

(** [initialize]; [remote] is the client [new Client(...)] builds. *)
Definition initialize (w : world) (remote : client) (svc : service) : service :=
  if isInitialized svc then svc
  else if truthy (env_LANGCHAIN_API_KEY w) then
    if Client_constructs w
    then Service (Some remote) true (pendingFeedback svc) (reads svc)
    else (* catch: still initialize for local collection *)
      Service (langsmithClient svc) true (pendingFeedback svc) (reads svc)
  else Service (langsmithClient svc) true (pendingFeedback svc) (reads svc).

(** [`local_${Date.now()}_${Math.random().toString(36).substr(2, 9)}`] *)
Definition local_id (w : world) (n : nat) : str :=
  lit "local_" ++ of_int (date_now w n) ++ lit "_" ++ random36 w n.

Definition set_pending (svc : service) (id : str) (fb : feedback) (n : nat) : service :=
  Service (langsmithClient svc) (isInitialized svc)
          (<[id := fb]> (pendingFeedback svc)) n.

Definition set_reads (svc : service) (n : nat) : service :=
  Service (langsmithClient svc) (isInitialized svc) (pendingFeedback svc) n.

(** The three confirmation messages. *)
Definition submitted_message (starRating : Z) : str :=
  [9989] ++ lit " Thank you! Your " ++ of_int starRating
  ++ lit "-star rating has been submitted to improve our AI system.".
Definition failed_message (starRating : Z) (err : str) : str :=
  [55357; 56541] ++ lit " Your " ++ of_int starRating
  ++ lit "-star rating has been recorded locally (LangSmith submission failed: "
  ++ err ++ lit ").".
Definition local_message (starRating : Z) (reason : str) : str :=
  [55357; 56541] ++ lit " Thank you! Your " ++ of_int starRating
  ++ lit "-star rating has been recorded locally (" ++ reason ++ lit ").".

(** [feedbackData.runId || await this.getRunIdFromContext(threadManager)] *)
Definition resolveRunId (w : world) (n : nat) (feedbackData : feedback_data)
    (threadManager : option thread_manager) : str :=
  if truthy (fd_runId feedbackData) then default [] (fd_runId feedbackData)
  else getRunIdFromContext w n threadManager.

(** The record [feedback] of a call whose rating passed the validation. *)
Definition make_feedback (w : world) (n : nat) (feedbackData : feedback_data)
    (threadManager : option thread_manager) : feedback :=
  let starRating := default 0 (fd_starRating feedbackData) in
  let tid := threadManager ≫= (λ tm, or_null (currentThreadId tm)) in
  {| starRating := starRating;
     score := convertStarRatingToScore (number_of_Z starRating);
     fb_comment := or_else (fd_comment feedbackData) [];
     key := or_else (fd_key feedbackData) (lit "user_rating");
     runId := resolveRunId w n feedbackData threadManager;
     timestamp := iso_now w n;
     threadId := tid; sessionId := tid; conversationId := tid |}.

(** The arguments of [createFeedback]. *)
Definition remote_payload (fb : feedback) : remote_feedback :=
  {| rf_runId := runId fb;
     rf_key := key fb;
     rf_score := score fb;
     rf_value := of_int (starRating fb) ++ lit "_stars";
     rf_comment :=
       if truthy (Some (fb_comment fb))
       then of_int (starRating fb) ++ lit "/5 stars: " ++ fb_comment fb
       else of_int (starRating fb) ++ lit "/5 stars" |}.

(** [collectFeedback].  The function calls itself once after a lazy
    [initialize]; [fuel] bounds that recursion and [None] is "out of fuel".
    [remote] is the client a (re-)initialization would build. *)
Fixpoint collectFeedback (fuel : nat) (w : world) (remote : client)
    (svc : service) (feedbackData : feedback_data)
    (threadManager : option thread_manager)
  : option (service * outcome result) :=
  match fuel with
  | O => None
  | S fuel' =>
    (* Validate star rating *)
    if negb (valid_rating (fd_starRating feedbackData)) then
      Some (svc, Throw (lit "Star rating must be between 1 and 5"))
    else
    let n := reads svc in
    let fb := make_feedback w n feedbackData threadManager in
    let starRating := starRating fb in
    let runId := runId fb in
    let localId := local_id w (S n) in
    let svc1 := set_pending svc localId fb (S (S n)) in
    let local (reason : str) := {|
          success := true; submitted := false;
          r_runId := None; feedbackId := None; localId := Some localId;
          r_feedback := fb; error := None;
          message := local_message starRating reason |} in
    match langsmithClient svc with
    | Some cl =>
        if truthy (Some runId) then
          (* Submit to LangSmith if possible *)
          match createFeedback cl (remote_payload fb) with
          | Resolved id =>
              Some (set_reads svc (S n), Return {|
                success := true; submitted := true;
                r_runId := Some runId; feedbackId := id; localId := None;
                r_feedback := fb; error := None;
                message := submitted_message starRating |})
          | Rejected err =>
              (* Fall back to local storage if LangSmith fails *)
              Some (svc1, Return {|
                success := true; submitted := false;
                r_runId := None; feedbackId := None; localId := Some localId;
                r_feedback := fb; error := Some err;
                message := failed_message starRating err |})
          end
        else
          (* Store locally if LangSmith is not available *)
          Some (svc1, Return (local (lit "No run ID available")))
    | None =>
        (* Store locally, then try to initialize LangSmith if it wasn't *)
        let svc2 := initialize w remote svc1 in
        match langsmithClient svc2 with
        | Some _ =>
            if truthy (Some runId) then
              (* Retry once; the thread manager is not passed on *)
              match collectFeedback fuel' w remote svc2 feedbackData None with
              | None => None
              | Some (svc3, Return r) => Some (svc3, Return r)
              | Some (svc3, Throw _) =>
                  Some (svc3, Return (local (lit "LangSmith not initialized")))
              end
            else Some (svc2, Return (local (lit "LangSmith not initialized")))
        | None => Some (svc2, Return (local (lit "LangSmith not initialized")))
        end
    end
  end.

(** [collectFeedbackWithContext]: the same call inside a [traceable] run,
    whose run tree the world reports. *)
Definition collectFeedbackWithContext := collectFeedback.

(** ** Replying to a rating *)

(** [String.prototype.repeat] with an integer count; a negative count is a
    [RangeError]. *)
Definition repeat_string (s : str) (count : Z) : outcome str :=
  if count <? 0 then Throw (lit "Invalid count value: " ++ of_int count)
  else Return (concat (replicate (Z.to_nat count) s)).

(** [getStarEmoji] *)
Definition getStarEmoji (starRating : Z) : outcome str :=
  match repeat_string [11088] starRating with
  | Throw e => Throw e
  | Return filledStars =>
      match repeat_string [9734] (5 - starRating) with
      | Throw e => Throw e
      | Return emptyStars => Return (filledStars ++ emptyStars)
      end
  end.

(** The object [processUserFeedback] returns: with [success: true] the
    fields [submitted], [starRating], [comment], [message] and [feedback];
    with [success: false] the field [error]. *)
Inductive processed : Type :=
| Processed (submitted : bool) (starRating : Z) (comment : str)
            (message : str) (feedback : feedback)
| NotProcessed (error : str).

Definition p_success (p : processed) : bool :=
  match p with Processed _ _ _ _ _ => true | NotProcessed _ => false end.

(** [processUserFeedback(userInput, aiResponse, runId, threadManager)];
    [aiResponse] is not used.  With a thread manager the feedback goes
    through [collectFeedbackWithContext], without one through
    [collectFeedback] and its default [null]; two units of fuel cover the
    one retry.  Whatever is thrown inside is caught and reported. *)
Definition processUserFeedback (w : world) (remote : client) (svc : service)
    (userInput : str) (runId : option str)
    (threadManager : option thread_manager) : service * processed :=
  match parseUserFeedback userInput with
  | None =>
      (svc, NotProcessed (lit "Please use format like '5', '4 stars', or '3 - comment'"))
  | Some parsed =>
      let rating := rating parsed in
      let comment := comment parsed in
      (* Validate rating *)
      if (rating <? 1) || (5 <? rating) then
        (svc, NotProcessed (lit "Rating must be between 1 and 5 stars"))
      else
        let data := FeedbackData (Some rating) (Some comment) None runId in
        let collected :=
          match threadManager with
          | Some tm => collectFeedbackWithContext 2 w remote svc data (Some tm)
          | None => collectFeedback 2 w remote svc data None
          end in
        let failed (svc' : service) (e : str) :=
          (svc', NotProcessed (lit "Error processing feedback: " ++ e)) in
        match default (svc, Throw (lit "unreachable")) collected with
        | (svc', Throw e) => failed svc' e
        | (svc', Return result) =>
            match getStarEmoji rating with
            | Throw e => failed svc' e
            | Return starEmoji =>
                let responseMessage :=
                  starEmoji ++ lit " Thank you for your " ++ of_int rating
                  ++ lit "-star rating!"
                  ++ (if truthy (Some comment)
                      then [10] ++ lit "Comment: " ++ [34] ++ comment ++ [34]
                      else [])
                  ++ (if submitted result
                      then [10; 9989]
                           ++ lit " Feedback submitted to LangSmith for AI improvement."
                      else [10; 55357; 56541] ++ lit " Feedback recorded locally.") in
                (svc', Processed (submitted result) rating comment
                                 responseMessage (r_feedback result))
            end
        end
  end.

(** ** Stated behaviour

    The two definitions below follow the description of the service, not its
    code: the order in which a run identifier is looked for, and what a
    confirmation message shows. *)

(** [uuidRegex.test(s)] *)
Definition is_uuid (s : str) : bool := test uuidRegex s.

(** An explicitly supplied identifier if present; otherwise the one of the
    active trace if it is a valid UUID; otherwise the thread identifier if it
    is a valid UUID; otherwise a fresh one. *)
Definition resolve_by_precedence (explicit trace thread : option str)
    (fresh : str) : str :=
  match explicit with
  | Some (c :: id) => c :: id
  | _ =>
      match trace with
      | Some id => if is_uuid id then id else
          match thread with
          | Some tid => if is_uuid tid then tid else fresh
          | None => fresh
          end
      | None =>
          match thread with
          | Some tid => if is_uuid tid then tid else fresh
          | None => fresh
          end
      end
  end.

(** A confirmation message is not empty and shows the star count. *)
Definition confirms (r : Z) (msg : str) : Prop :=
  msg ≠ [] ∧ includes msg (of_int r) = true.

(** The 36 positions of a UUID: hexadecimal digits in groups of 8, 4, 4, 4
    and 12 with hyphens between, the third group starting with a version
    digit 1 to 5 and the fourth with 8, 9, a or b. *)
Definition uuid_classes : list (Z → bool) :=
  replicate 8 is_hex ++ [Z.eqb 45] ++ replicate 4 is_hex ++ [Z.eqb 45]
  ++ [is_1_to_5] ++ replicate 3 is_hex ++ [Z.eqb 45]
  ++ [is_89ab] ++ replicate 3 is_hex ++ [Z.eqb 45] ++ replicate 12 is_hex.

End Feedback.

(* ===================================================================== *)
(** * The stores                                                          *)
(* ===================================================================== *)

Module Store.
Import Js.

(** ** PersistentStorage

    The file holds the JSON text of the value last saved.  Every value the
    stores write is built from strings, booleans, [null], arrays and plain
    objects, on which [JSON.parse] inverts [JSON.stringify], so the file is
    modelled by the value itself: [None] is a missing or unreadable file. *)

(** [load(defaultValue)] *)
Definition load {A} (file : option A) (defaultValue : A) : A :=
  default defaultValue file.

(** [save(data)]; [writes] tells whether [fs.writeFile] succeeds.  The
    result is the file and the boolean [save] returns. *)
Definition save {A} (writes : bool) (file : option A) (data : A) : option A * bool :=
  if writes then (Some data, true) else (file, false).

(** ** Messages *)

(** An entry of [tool_calls]. *)
Record tool_call := ToolCall { tc_name : str; tc_args : str; tc_id : str }.

(** The object [serializeMessage] builds, which is also the shape of a
    message read back from the file. *)
Record message_data := MessageData {
  md_type : str;
  md_content : str;
  md_timestamp : str;
  md_tool_calls : option (list tool_call);
  md_tool_call_id : option str;
}.

(** A message in memory: an instance of a @langchain/core message class,
    whose [_getType()] returns [lc_type], or a plain object. *)
Inductive message : Type :=
| LangChain (lc_type : str) (content : str)
            (tool_calls : option (list tool_call)) (tool_call_id : option str)
| Plain (data : message_data).

(** [new HumanMessage(content)] and [new AIMessage(content)]; the library
    starts an AI message with an empty [tool_calls] array. *)
Definition HumanMessage (content : str) : message :=
  LangChain (lit "human") content None None.
Definition AIMessage (content : str) : message :=
  LangChain (lit "ai") content (Some []) None.

Definition content_of (m : message) : str :=
  match m with
  | LangChain _ c _ _ => c
  | Plain d => md_content d
  end.
Definition tool_calls_of (m : message) : option (list tool_call) :=
  match m with
  | LangChain _ _ tcs _ => tcs
  | Plain d => md_tool_calls d
  end.
Definition tool_call_id_of (m : message) : option str :=
  match m with
  | LangChain _ _ _ id => id
  | Plain d => md_tool_call_id d
  end.

(** [getMessageType] of messageUtils.js; [None] is a missing message.  A
    plain object has no [_getType] and its constructor is [Object]. *)
Definition getMessageType (message : option message) : str :=
  match message with
  | None => lit "unknown"
  | Some (LangChain t _ _ _) => t
  | Some (Plain d) =>
      if truthy (Some (md_type d)) then md_type d
      else
        match md_tool_calls d with
        | Some (_ :: _) => lit "ai"
        | _ => lit "unknown"
        end
  end.

(** [isHumanMessage] *)
Definition isHumanMessage (m : message) : bool :=
  bool_decide (getMessageType (Some m) = lit "human").

(** [serializeMessage]; [now] is [new Date().toISOString()].  An array is
    truthy, the empty string is not. *)
Definition serializeMessage (now : str) (message : message) : message_data :=
  {| md_type := getMessageType (Some message);
     md_content := content_of message;
     md_timestamp := now;
     md_tool_calls := tool_calls_of message;
     md_tool_call_id := or_null (tool_call_id_of message) |}.

(** [deserializeMessage] *)
Definition deserializeMessage (messageData : message_data) : message :=
  if bool_decide (md_type messageData = lit "human") then
    HumanMessage (md_content messageData)
  else if bool_decide (md_type messageData = lit "ai") then
    match md_tool_calls messageData with
    | Some tcs =>
        LangChain (lit "ai") (md_content messageData) (Some tcs) None
    | None => AIMessage (md_content messageData)
    end
  else Plain messageData.

(** ** ConversationStore *)

(** A conversation, in memory ([M := message]) or in the file
    ([M := message_data]). *)
Record conversation (M : Type) := Conversation {
  conv_id : str;
  title : str;
  messages : list M;
  createdAt : str;
  updatedAt : str;
}.
Arguments Conversation {M}.
Arguments conv_id {M}.
Arguments title {M}.
Arguments messages {M}.
Arguments createdAt {M}.
Arguments updatedAt {M}.

(** [{ ...conv, messages: conv.messages.map(f) }] *)
Definition map_messages {M N} (f : M → N) (conv : conversation M) : conversation N :=
  Conversation (conv_id conv) (title conv) (f <$> messages conv)
               (createdAt conv) (updatedAt conv).

(** The content of conversations.json: the array under [conversations]. *)
Abbreviation conversations_file := (option (list (conversation message_data))).

Definition maxHistorySize : nat := 100.

(** [loadConversations] *)
Definition loadConversations (file : conversations_file) : list (conversation message) :=
  map_messages deserializeMessage <$> load file [].

(** [saveConversations] *)
Definition saveConversations (now : str) (writes : bool) (file : conversations_file)
    (conversations : list (conversation message)) : conversations_file * bool :=
  save writes file (map_messages (serializeMessage now) <$> conversations).

(** [content.substring(0, 30)] and the title of a new conversation;
    [locale_now] is [new Date().toLocaleString()]. *)
Definition generateTitle (locale_now : str) (messages : list message) : str :=
  match messages with
  | [] => lit "New conversation"
  | _ :: _ =>
      match List.find isHumanMessage messages with
      | Some firstHumanMessage =>
          let c := content_of firstHumanMessage in
          if (30 <? length c)%nat then take 30 c ++ lit "..." else take 30 c
      | None => lit "Conversation " ++ locale_now
      end
  end.

(** The clock and the disk at one store operation. *)
Record disk := Disk {
  Date_now : Z;          (* Date.now() *)
  iso : str;             (* new Date().toISOString() *)
  locale : str;          (* new Date().toLocaleString() *)
  writes : bool;         (* fs.writeFile succeeds *)
}.

(** [addConversation(messages, title)]: the new file and the id returned.
    [unshift] puts the new conversation first and [splice(maxHistorySize)]
    cuts the array after its first [maxHistorySize] entries. *)
Definition addConversation (d : disk) (file : conversations_file)
    (msgs : list message) (ttl : option str) : conversations_file * str :=
  let conversations := loadConversations file in
  let newConversation :=
    Conversation (of_int (Date_now d))
                 (if truthy ttl then default [] ttl else generateTitle (locale d) msgs)
                 msgs (iso d) (iso d) in
  let conversations := newConversation :: conversations in
  let conversations :=
    if (maxHistorySize <? length conversations)%nat
    then take maxHistorySize conversations else conversations in
  ((saveConversations (iso d) (writes d) file conversations).1, conv_id newConversation).

(** ** AuthStore *)

(** The content of auth.json.  [lastLoginTime] is kept as the instant its
    ISO string denotes, in milliseconds since the epoch. *)
Record auth_data := AuthData {
  isLoggedIn : bool;
  cookies : list str;
  token : option str;
  userData : option str;
  lastLoginTime : option Z;
}.

Definition defaultAuthData : auth_data := AuthData false [] None None None.

(** [(now - lastLogin) / (1000 * 60 * 60)].  Both instants are integers, so
    the difference is exact in binary64; the quotient is kept exact here,
    and as rounding is monotone and 24 is a binary64 number, the test
    [hoursAgo > 24] is the one the program makes. *)
Definition hoursAgo (now lastLogin : Z) : Q :=
  (inject_Z (now - lastLogin) / inject_Z (1000 * 60 * 60))%Q.

(** [loadAuthData]; [now] is [new Date()]. *)
Definition loadAuthData (now : Z) (file : option auth_data) : auth_data :=
  let data := load file defaultAuthData in
  match lastLoginTime data with
  | Some lastLogin =>
      if Qlt_le_dec 24 (hoursAgo now lastLogin)
      then defaultAuthData   (* Auth expired, return default data *)
      else data
  | None => data
  end.

(** ** The rest of messageUtils.js *)

(** [getMessageContent]: [message && message.content ? message.content : ''];
    an empty content is falsy and gives the empty string again. *)
Definition getMessageContent (message : option message) : str :=
  match message with
  | Some m => if truthy (Some (content_of m)) then content_of m else []
  | None => []
  end.

(** [formatMessageForDisplay(message, maxLength)], for an integer
    [maxLength]; [substring(0, maxLength)] takes nothing when [maxLength] is
    negative. *)
Definition formatMessageForDisplay (message : option message) (maxLength : Z) : str :=
  let content := getMessageContent message in
  if Z.of_nat (length content) <=? maxLength then content
  else take (Z.to_nat maxLength) content ++ lit "...".

(** ** The rest of ConversationStore *)

(** [updateConversation(conversationId, messages)]: the new file and the
    boolean returned.  [findIndex] gives the first conversation with that id;
    the result of [saveConversations] is not looked at. *)
Definition updateConversation (d : disk) (file : conversations_file)
    (conversationId : str) (msgs : list message) : conversations_file * bool :=
  let conversations := loadConversations file in
  match list_find (λ conv, conv_id conv = conversationId) conversations with
  | Some (index, conv) =>
      let conversations :=
        <[index := Conversation (conv_id conv) (title conv) msgs
                                (createdAt conv) (iso d)]> conversations in
      ((saveConversations (iso d) (writes d) file conversations).1, true)
  | None => (file, false)
  end.

(** [getRecentConversation]; [None] is [null]. *)
Definition getRecentConversation (file : conversations_file)
  : option (conversation message) :=
  head (loadConversations file).

(** [getConversationById]; [None] is [null]. *)
Definition getConversationById (file : conversations_file) (conversationId : str)
  : option (conversation message) :=
  snd <$> list_find (λ conv, conv_id conv = conversationId) (loadConversations file).

(** [getAllConversations] *)
Definition getAllConversations (file : conversations_file)
  : list (conversation message) :=
  loadConversations file.

(** ** The rest of AuthStore *)

(** [saveAuthData(authData)]: the new file and the boolean [save] returns;
    [now] is [new Date()], written as its ISO string. *)
Definition saveAuthData (now : Z) (writes : bool) (file : option auth_data)
    (authData : auth_data) : option auth_data * bool :=
  save writes file
       (AuthData (isLoggedIn authData) (cookies authData) (token authData)
                 (userData authData) (Some now)).

(** [clearAuthData]: the new file and the value returned. *)
Definition clearAuthData (writes : bool) (file : option auth_data)
  : option auth_data * auth_data :=
  ((save writes file defaultAuthData).1, defaultAuthData).

(** [hasValidAuth], as the truth value of what it returns:
    [data.isLoggedIn && (data.token || data.cookies.length > 0)]. *)
Definition hasValidAuth (now : Z) (file : option auth_data) : bool :=
  let data := loadAuthData now file in
  isLoggedIn data && (truthy (token data) || (0 <? length (cookies data))%nat).

(** ** Stated behaviour *)

(** The messages of type human or ai are the instances of the two classes,
    which is what the interface, the thread manager and the loader build: a
    [HumanMessage] has neither [tool_calls] nor [tool_call_id]; an
    [AIMessage] has its [tool_calls] array and no [tool_call_id], which is a
    field of [ToolMessage]. *)
Inductive human_or_ai : message → Prop :=
| human_message content :
    human_or_ai (HumanMessage content)
| ai_message content tool_calls :
    human_or_ai (LangChain (lit "ai") content (Some tool_calls) None).

(** Two messages with the same type, content and tool-call metadata. *)
Definition same_message (m m' : message) : Prop :=
  getMessageType (Some m') = getMessageType (Some m)
  ∧ content_of m' = content_of m
  ∧ tool_calls_of m' = tool_calls_of m
  ∧ tool_call_id_of m' = tool_call_id_of m.

End Store.

(* ===================================================================== *)
(** * The application                                                     *)
(* ===================================================================== *)

Module App.
Import Js Feedback.

(** One invocation of the workflow: how long it takes to settle, in
    milliseconds, and how it settles. *)
Record invocation (A : Type) := Invocation {
  duration_ms : Z;
  settles : outcome A;
}.
Arguments Invocation {A}.
Arguments duration_ms {A}.
Arguments settles {A}.

(** [Application.processInput]: [Promise.race] of the invocation with a
    timer that rejects after 30000 ms. *)
Definition processInput {A} (isInitialized : bool) (inv : invocation A) : outcome A :=
  if negb isInitialized then Throw (lit "Application not initialized")
  else if duration_ms inv <? 30000 then settles inv
  else Throw (lit "Request timeout (30 seconds)").

(** [Application.processMessageWithThread], which hands the message to
    [ThreadManager.processMessage]; that one awaits [workflow.invoke] with
    no timer and rethrows what it catches.  The invocation stands for the
    whole chain and settles with [result.response]. *)
Definition processMessageWithThread {A} (isInitialized isReady : bool)
    (inv : invocation A) : outcome A :=
  if negb isInitialized then Throw (lit "Application not initialized")
  else if negb isReady then
    Throw (lit "ThreadManager not initialized. Please check OPENAI_API_KEY environment variable.")
  else settles inv.

End App.

(* ===================================================================== *)
(** * The command line interface                                          *)
(* ===================================================================== *)

Module Cli.
Import Js Feedback Store App.

(** The fields of [CLIInterface] and of its [ConversationManager], and the
    module-level [feedbackService].  [autoSaveIfNeeded] and the thread
    commands also read and write conversations.json and
    [currentConversationId]; they catch their own errors and touch none of
    the fields below except as stated, and that file is not part of this
    state. *)
Record cli := CLI {
  currentMessages : list message;
  isWaitingForFeedback : bool;
  isWaitingForComment : bool;
  pendingRating : option Z;
  isRunning : bool;
  feedbackService : service;
}.

(** [new CLIInterface(app)] *)
Definition new_cli : cli := CLI [] false false None false new_service.

(** What one turn of the main loop reads from outside: the world of the
    feedback service, the state of [this.app] and of its thread manager,
    the workflow invocation the turn would make, and the messages a thread
    command loads, if it loads any. *)
Record turn := Turn {
  t_world : world;
  t_remote : client;
  t_app_isInitialized : bool;
  t_threadManager_isReady : bool;
  t_threadManager : thread_manager;
  t_workflow : invocation str;
  t_switched : option (list message);
}.

(** [Array.prototype.push] and [pop] on [currentMessages]. *)
Definition push (m : message) (st : cli) : cli :=
  CLI (currentMessages st ++ [m]) (isWaitingForFeedback st)
      (isWaitingForComment st) (pendingRating st) (isRunning st)
      (feedbackService st).
Definition pop (st : cli) : cli :=
  CLI (removelast (currentMessages st)) (isWaitingForFeedback st)
      (isWaitingForComment st) (pendingRating st) (isRunning st)
      (feedbackService st).
Definition set_service (svc : service) (st : cli) : cli :=
  CLI (currentMessages st) (isWaitingForFeedback st)
      (isWaitingForComment st) (pendingRating st) (isRunning st) svc.
Definition set_flags (wf wc : bool) (r : option Z) (st : cli) : cli :=
  CLI (currentMessages st) wf wc r (isRunning st) (feedbackService st).

(** [getStarEmoji]; it is reached only after [collectFeedback] has accepted
    the rating, so both counts are natural numbers. *)
Definition getStarEmoji (starRating : Z) : str :=
  replicate (Z.to_nat starRating) 11088 ++ replicate (Z.to_nat (5 - starRating)) 9734.

(** [collectFeedbackWithContext] as the interface calls it; two units of
    fuel cover the one retry of [collectFeedback]. *)
Definition collect (t : turn) (svc : service) (data : feedback_data)
  : service * outcome result :=
  default (svc, Throw (lit "unreachable"))
          (collectFeedbackWithContext 2 (t_world t) (t_remote t) svc data
                                      (Some (t_threadManager t))).

(** The body of [if (this.isWaitingForComment) { ... }]. *)
Definition comment_step (t : turn) (userInput : str) (st : cli) : cli * outcome unit :=
  let svc := initialize (t_world t) (t_remote t) (feedbackService st) in
  let comment := trim userInput in
  match collect t svc
          (FeedbackData (pendingRating st) (Some comment)
                        (Some (lit "user_rating")) None) with
  | (svc', Throw e) => (set_service svc' st, Throw e)
  | (svc', Return result) =>
      let r := default 0 (pendingRating st) in
      let responseMessage :=
        getStarEmoji r ++ lit " Thank you for your " ++ of_int r
        ++ lit "-star rating!"
        ++ (if truthy (Some comment)
            then [10] ++ lit "Comment: " ++ [34] ++ comment ++ [34] else [])
        ++ (if submitted result
            then [10; 9989] ++ lit " Submitted to LangSmith for AI improvement."
            else [10; 55357; 56541] ++ lit " Recorded locally.") in
      (* Reset feedback waiting states *)
      (set_flags false false None
         (push (AIMessage responseMessage) (set_service svc' st)),
       Return ())
  end.

(** The body of [if (this.isWaitingForFeedback) { ... }]. *)
Definition rating_step (t : turn) (userInput : str) (st : cli) : cli * outcome unit :=
  let st := set_service (initialize (t_world t) (t_remote t) (feedbackService st)) st in
  match parseUserFeedback userInput with
  | Some parsed =>
      if (1 <=? rating parsed) && (rating parsed <=? 5) then
        (* Store rating and ask for comment *)
        (set_flags false true (Some (rating parsed)) st, Return ())
      else (st, Return ())
  | None => (st, Return ())
  end.

(** Normal workflow processing. *)
Definition workflow_step (t : turn) (userInput : str) (st : cli) : cli * outcome unit :=
  match processMessageWithThread (t_app_isInitialized t)
          (t_threadManager_isReady t) (t_workflow t) with
  | Throw e => (st, Throw e)
  | Return response =>
      let st :=
        if includes response (lit "Rate this response")
        then set_flags true (isWaitingForComment st) (pendingRating st) st
        else st in
      (push (AIMessage response) st, Return ())
  end.

(** [processUserInput]: the user message is pushed, the [try] block runs one
    of the three bodies, and the [catch] block pops the last message. *)
Definition processUserInput (t : turn) (userInput : str) (st : cli) : cli :=
  let st := push (HumanMessage userInput) st in
  let tried :=
    if isWaitingForComment st then comment_step t userInput st
    else if isWaitingForFeedback st then rating_step t userInput st
    else workflow_step t userInput st in
  match tried with
  | (st', Return _) => st'
  | (st', Throw _) => pop st'    (* Remove last added user message on error *)
  end.

(** [String.prototype.toLowerCase] on the ASCII letters, which decides the
    comparisons of [handleSpecialCommands]. *)
Definition to_lower (c : Z) : Z := if (65 <=? c) && (c <=? 90) then c + 32 else c.

(** [handleSpecialCommands]: [None] when it returns false (the input is not
    a command), else the state it leaves.  [clear] empties the conversation;
    a thread command that finds its thread replaces the messages with the
    loaded ones; the other commands only print. *)
Definition handleSpecialCommands (t : turn) (input : str) (st : cli) : option cli :=
  let command := to_lower <$> trim input in
  let with_messages (ms : list message) :=
    CLI ms (isWaitingForFeedback st) (isWaitingForComment st)
        (pendingRating st) (isRunning st) (feedbackService st) in
  if bool_decide (command = lit "exit") then
    Some (CLI (currentMessages st) (isWaitingForFeedback st)
              (isWaitingForComment st) (pendingRating st) false
              (feedbackService st))
  else if bool_decide (command = lit "clear") then Some (with_messages [])
  else if bool_decide (command = lit "history") then Some st
  else if bool_decide (command = lit "thread") then Some st
  else if bool_decide (command = lit "thread-history") then Some st
  else if bool_decide (command = lit "threads") then Some st
  else if bool_decide (command = lit "switch-thread")
          || starts_with (lit "thread-") command then
    Some (with_messages (default (currentMessages st) (t_switched t)))
  else None.

(** One iteration of [mainLoop]. *)
Definition mainLoop_step (st : cli) (ev : turn * str) : cli :=
  match handleSpecialCommands ev.1 ev.2 st with
  | Some st' => st'
  | None => processUserInput ev.1 ev.2 st
  end.

(** The interface after a sequence of inputs. *)
Definition run_inputs (evs : list (turn * str)) : cli :=
  foldl mainLoop_step new_cli evs.

(** ** Stated behaviour *)

(** The flags of the two-step feedback dialogue agree with each other. *)
Definition flags_consistent (st : cli) : Prop :=
  ¬ (isWaitingForFeedback st = true ∧ isWaitingForComment st = true)
  ∧ (isWaitingForComment st = true →
     ∃ r, pendingRating st = Some r ∧ 1 <= r <= 5)
  ∧ (isWaitingForFeedback st = false → isWaitingForComment st = false →
     pendingRating st = None).

(** The invariant that carries it through a turn. *)
Definition flags_inv (st : cli) : Prop :=
  (isWaitingForComment st = true →
   isWaitingForFeedback st = false ∧ ∃ r, pendingRating st = Some r ∧ 1 <= r <= 5)
  ∧ (isWaitingForComment st = false → pendingRating st = None).

End Cli.

(* ===================================================================== *)
(** * The conversation manager and the thread commands                    *)
(* ===================================================================== *)

Module Manager.
Import Js Store.

(** The fields of [ConversationManager] that are saved and restored. *)
Record manager := ConversationManager {
  currentMessages : list message;
  currentConversationId : option str;
}.

(** [new ConversationManager()] *)
Definition new_manager : manager := ConversationManager [] None.

(** [saveConversation]: the new file and the manager.  A conversation that
    has an id is updated in place, one without is added and takes the id
    [addConversation] returns. *)
Definition saveConversation (d : disk) (file : conversations_file) (m : manager)
  : conversations_file * manager :=
  match currentMessages m with
  | [] => (file, m)
  | _ :: _ =>
      if truthy (currentConversationId m) then
        ((updateConversation d file (default [] (currentConversationId m))
                             (currentMessages m)).1, m)
      else
        let added := addConversation d file (currentMessages m) None in
        (added.1, ConversationManager (currentMessages m) (Some added.2))
  end.

(** [clearConversation] *)
Definition clearConversation (d : disk) (file : conversations_file) (m : manager)
  : conversations_file * manager :=
  let saved :=
    if (0 <? length (currentMessages m))%nat
    then (saveConversation d file m).1 else file in
  (saved, ConversationManager [] None).

(** [restoreRecentConversation(rl)]; [answer] is what the user types when
    asked whether to continue.  Only "n" and "N" have the lower case "n". *)
Definition restoreRecentConversation (answer : str) (file : conversations_file)
    (m : manager) : manager * bool :=
  match getRecentConversation file with
  | None => (m, false)
  | Some recentConversation =>
      match messages recentConversation with
      | [] => (m, false)
      | _ :: _ =>
          if bool_decide (Cli.to_lower <$> answer ≠ lit "n") then
            (ConversationManager (messages recentConversation)
                                 (Some (conv_id recentConversation)), true)
          else (m, false)
      end
  end.

(** ** Threads *)

(** [ThreadManager.createThread(threadId)]: the id that becomes
    [currentThreadId] and is returned; [now] is [Date.now()]. *)
Definition createThread (isInitialized : bool) (now : Z) (threadId : option str)
  : Feedback.outcome str :=
  if negb isInitialized then Feedback.Throw (lit "ThreadManager not initialized")
  else Feedback.Return (or_else threadId (lit "thread-" ++ of_int now)).

(** A message of a thread history as LangSmith returns it. *)
Record history_message := HistoryMessage {
  role : str;
  h_content : str;
  h_tool_call_id : option str;
}.

(** The conversion of [switchToSpecificThread]: a message of another role
    is kept as the plain object it is, which has no [type]. *)
Definition of_history (msg : history_message) : message :=
  if bool_decide (role msg = lit "user") then HumanMessage (h_content msg)
  else if bool_decide (role msg = lit "assistant") then AIMessage (h_content msg)
  else Plain (MessageData [] (h_content msg) [] None (h_tool_call_id msg)).

(** [ThreadManager.saveToLocalStore(userMessage, aiResponse, threadId)] *)
Definition saveToLocalStore (d : disk) (file : conversations_file)
    (userMessage aiResponse threadId : str) : conversations_file :=
  (addConversation d file [HumanMessage userMessage; AIMessage aiResponse]
                   (Some (lit "Thread: " ++ threadId))).1.

(** What [switchToSpecificThread] leaves: the file, the manager and
    [threadManager.currentThreadId]. *)
Record switched := Switched {
  sw_file : conversations_file;
  sw_manager : manager;
  sw_currentThreadId : str;
}.

(** [switchToSpecificThread(threadId)]; [history] is what
    [threadManager.getThreadHistory] gives for a thread id. *)
Definition switchToSpecificThread (d : disk) (history : str → list history_message)
    (file : conversations_file) (m : manager) (threadId : str) : switched :=
  (* First try to load conversation from local store; if not found by
     exact ID, try to find by title match, and then update threadId to the
     actual stored ID *)
  let found : option (conversation message) * str :=
    match getConversationById file threadId with
    | Some conversation => (Some conversation, threadId)
    | None =>
        if starts_with (lit "thread-") threadId then
          match snd <$> list_find (λ conv, title conv = lit "Thread: " ++ threadId)
                                  (getAllConversations file) with
          | Some conversation => (Some conversation, conv_id conversation)
          | None => (None, threadId)
          end
        else (None, threadId)
    end in
  let threadId := found.2 in
  match found.1 with
  | Some conversation =>
      (* Found in local store *)
      Switched file
               (ConversationManager (messages conversation)
                                    (Some (conv_id conversation)))
               threadId
  | None =>
      (* Try to load from LangSmith *)
      match history threadId with
      | [] => Switched file m threadId
      | _ :: _ =>
          let msgs := of_history <$> history threadId in
          let file' := (addConversation d file msgs
                                        (Some (lit "Thread: " ++ threadId))).1 in
          Switched file' (ConversationManager msgs (Some threadId)) threadId
      end
  end.

End Manager.

(* ===================================================================== *)
(** * The accepted textual forms of a rating                              *)
(* ===================================================================== *)

Module Forms.
Import Js Regex Feedback.

(** These definitions follow the description of the parser's input, not its
    code: they say which texts express the rating [r] with which comment. *)

Definition spaces (ws : str) : Prop := Forall (λ x, is_space x = true) ws.

(** [u] is the word [w] in some mix of upper and lower case. *)
Definition ci_word (w : string) (u : str) : Prop :=
  Forall2 (λ x y, is_ci y x = true) u (lit w).

(** The rating without a comment: "4", "4 stars", "4/5", "Rating: 4",
    "Score: 4". *)
Inductive rating_text (r : Z) : str → Prop :=
| rt_bare :
    rating_text r [48 + r]
| rt_stars ws u :
    spaces ws → ci_word "stars" u ∨ ci_word "star" u →
    rating_text r ([48 + r] ++ ws ++ u)
| rt_out_of_5 ws :
    spaces ws → rating_text r ([48 + r] ++ ws ++ lit "/5")
| rt_labelled lbl ws :
    ci_word "rating" lbl ∨ ci_word "score" lbl → spaces ws →
    rating_text r (lbl ++ lit ":" ++ ws ++ [48 + r]).

(** Free text: not empty, and taken without the white space around it. *)
Definition free_text (cm : str) : Prop :=
  ∃ x y s1 s2, cm = x :: s1 ∧ cm = s2 ++ [y]
               ∧ is_space x = false ∧ is_space y = false.

(** Text on one line. *)
Definition single_line (cm : str) : Prop :=
  Forall (λ x, is_line_terminator x = false) cm.

(** [accepted text r cm input]: [input] expresses the rating [r] in one of
    the accepted forms, with the comment [cm] after a dash, or with no dash
    and comment when [cm] is empty; [text] says what a comment may be. *)
Inductive accepted (text : str → Prop) (r : Z) : str → str → Prop :=
| acc_plain t :
    rating_text r t → accepted text r [] t
| acc_comment t ws1 d ws2 cm :
    rating_text r t → spaces ws1 → is_dash d = true → spaces ws2 → text cm →
    accepted text r cm (t ++ ws1 ++ [d] ++ ws2 ++ cm).

(** The first code unit of a text, if it has one, fails [p]; the last one
    does. *)
Definition starts_off (p : Z → bool) (s : str) : Prop :=
  match s with x :: _ => p x = false | [] => True end.
Definition ends_off (p : Z → bool) (s : str) : Prop :=
  ∃ s0 y, s = s0 ++ [y] ∧ p y = false.

(** What may follow the rating: nothing, or a dash and a one-line comment;
    and the captures it adds. *)
Inductive tail : str → str → Prop :=
| tail_none : tail [] []
| tail_comment ws1 d ws2 cm :
    spaces ws1 → is_dash d = true → spaces ws2 →
    free_text cm → single_line cm →
    tail cm (ws1 ++ [d] ++ ws2 ++ cm).

Definition with_comment (cm : str) (c : captures) : captures :=
  match cm with [] => c | _ :: _ => <[2%nat := cm]> c end.

End Forms.

(* ===================================================================== *)
(** * Properties                                                          *)
(* ===================================================================== *)

Import Js Regex Feedback Forms.

(** ** Scores *)

(** C7. For every integer rating r in 1..5 the score computed by
    [convertStarRatingToScore] is the binary64 number that denotes exactly
    (r - 1) / 4: 1 -> 0, 2 -> 0.25, 3 -> 0.5, 4 -> 0.75, 5 -> 1.0. *)
Theorem convertStarRatingToScore_exact (r : Z) :
  1 <= r <= 5 →
  (∃ q, Q_of_number (convertStarRatingToScore (number_of_Z r)) = Some q
        ∧ (q == (r - 1) # 4)%Q)
  ∧ convertStarRatingToScore (number_of_Z r)
    = nth (Z.to_nat (r - 1)) [0; 0.25; 0.5; 0.75; 1]%float 0%float.
Proof.
  intros Hr.
  assert (Hcases : r = 1 ∨ r = 2 ∨ r = 3 ∨ r = 4 ∨ r = 5) by lia.
  destruct Hcases as [-> | [-> | [-> | [-> | ->]]]];
    (split; [eexists; split; [vm_compute; reflexivity | reflexivity]
            | vm_compute; reflexivity]).
Qed.

Lemma convertStarRatingToScore_exact_witness :
  (∃ q, Q_of_number (convertStarRatingToScore (number_of_Z 4)) = Some q
        ∧ (q == (4 - 1) # 4)%Q)
  ∧ convertStarRatingToScore (number_of_Z 4)
    = nth (Z.to_nat (4 - 1)) [0; 0.25; 0.5; 0.75; 1]%float 0%float.
Proof. apply (convertStarRatingToScore_exact 4). lia. Defined.

(** ** The matcher *)

Section matcher.
Context (inp : str).
Implicit Types (p : Z → bool) (k : cont) (s : str) (c : captures).

(** A successful match of [c*] after a run of [c]'s is found again when
    the run is longer: the longer runs that fail are backtracked from. *)
Lemma star_loop_app p k ws s c res :
  Forall (λ x, p x = true) ws →
  star_loop p k s c = Some res →
  star_loop p k (ws ++ s) c = Some res.
Proof.
  intros Hws Hk. induction Hws as [|x ws Hx _ IH]; [done|].
  cbn [app star_loop]. by rewrite Hx, IH.
Qed.

Lemma star_loop_stop p k s c :
  match s with x :: _ => p x = false | [] => True end →
  star_loop p k s c = k s c.
Proof. destruct s as [|x s]; [done|]. cbn. by intros ->. Qed.

(** [c*] takes the whole run when what follows does not start with [c]. *)
Lemma star_loop_greedy p k ws s c res :
  Forall (λ x, p x = true) ws →
  match s with x :: _ => p x = false | [] => True end →
  k s c = Some res →
  star_loop p k (ws ++ s) c = Some res.
Proof.
  intros Hws Hs Hk. apply star_loop_app; [done|]. by rewrite star_loop_stop.
Qed.

Lemma star_loop_all p k s c res :
  Forall (λ x, p x = true) s →
  k [] c = Some res →
  star_loop p k s c = Some res.
Proof.
  intros Hs Hk. rewrite <-(app_nil_r s). by apply star_loop_greedy.
Qed.

(** A literal word under the [i] flag. *)
Lemma run_WordI w k u s c :
  Forall2 (λ x y, is_ci y x = true) u w →
  run inp (WordI w) k (u ++ s) c = k s c.
Proof.
  intros H. revert k. induction H as [|x y u w Hxy _ IH]; intros k; [done|].
  cbn [WordI run app]. unfold LitI. cbn [run]. rewrite Hxy. apply IH.
Qed.

(** [(c+)] up to the end of the input captures all that is left. *)
Lemma run_Group_Plus_all n p k x s c res :
  Forall (λ y, p y = true) (x :: s) →
  k [] (<[n := x :: s]> c) = Some res →
  run inp (Group n (Plus p)) k (x :: s) c = Some res.
Proof.
  intros Hs Hk. apply Forall_cons in Hs as [Hx Hs].
  cbn [run Plus]. rewrite Hx. apply star_loop_all; [done|].
  by rewrite take_ge by (cbn; lia).
Qed.

Lemma run_Bol_later r k s c :
  length s ≠ length inp → run inp (Seq Bol r) k s c = None.
Proof. intros. cbn. by rewrite decide_False. Qed.

Lemma search_Bol_later r s :
  (length s < length inp)%nat → search inp (Seq Bol r) s = None.
Proof.
  induction s as [|x s IH]; intros Hlen.
  - cbn [search]. rewrite run_Bol_later; [done | lia].
  - cbn [search]. rewrite run_Bol_later by lia. apply IH. cbn in Hlen. lia.
Qed.

End matcher.

(** A pattern that starts with [^] matches at the start or not at all. *)
Lemma exec_Bol r inp :
  exec (Seq Bol r) inp = run inp r accept inp ∅.
Proof.
  unfold exec. destruct inp as [|x s].
  - cbn. by destruct (run [] r accept [] ∅).
  - cbn [search]. rewrite search_Bol_later by (cbn; lia).
    cbn [run]. rewrite decide_True by done.
    by destruct (run (x :: s) r accept (x :: s) ∅).
Qed.

(** ** Code units *)

Ltac chars :=
  unfold is_ci, is_slash_or_space, is_dash, is_dot, is_digit, is_space,
    is_white_space, is_line_terminator, canonicalize in *;
  repeat match goal with
  | H : context [if ?b then _ else _] |- _ => destruct b eqn:?
  | |- context [if ?b then _ else _] => destruct b eqn:?
  end;
  rewrite ?orb_true_iff, ?andb_true_iff, ?orb_false_iff, ?andb_false_iff,
    ?negb_true_iff, ?negb_false_iff, ?Z.eqb_eq, ?Z.eqb_neq, ?Z.leb_le, ?Z.leb_gt,
    ?Z.ltb_lt, ?Z.ltb_ge in *;
  lia.

Lemma dash_not_space x : is_dash x = true → is_space x = false.
Proof. intros. chars. Qed.
Lemma dash_not_slash_or_space x : is_dash x = true → is_slash_or_space x = false.
Proof. intros. chars. Qed.
Lemma space_slash_or_space x : is_space x = true → is_slash_or_space x = true.
Proof. intros. chars. Qed.

Section pieces.
Context (inp : str).
Implicit Types (k : cont) (s : str) (c : captures).

Lemma run_Cat_cons r rs k :
  run inp (Cat (r :: rs)) k = run inp r (run inp (Cat rs) k).
Proof. done. Qed.

Lemma run_Group_Chr n p k x s c :
  p x = true → run inp (Group n (Chr p)) k (x :: s) c = k s (<[n := [x]]> c).
Proof.
  intros Hx. cbn. rewrite Hx. do 2 f_equal.
  replace (S (length s) - length s)%nat with 1%nat by lia. done.
Qed.

Lemma run_dash_comment_some k ws1 d ws2 cm c res :
  spaces ws1 → is_dash d = true → spaces ws2 →
  free_text cm → single_line cm →
  k [] (<[2%nat := cm]> c) = Some res →
  run inp dash_comment k (ws1 ++ [d] ++ ws2 ++ cm) c = Some res.
Proof.
  intros Hws1 Hd Hws2 (x & y & s1 & s2 & -> & _ & Hx & _) Hline Hk.
  unfold dash_comment, Opt, Cat. cbn [foldr]. cbn [run].
  erewrite star_loop_greedy; [done | done | by apply dash_not_space |].
  cbn [app]. rewrite Hd.
  apply star_loop_greedy; [done | done |].
  apply run_Group_Plus_all; [|done].
  eapply Forall_impl; [exact Hline|]. intros z Hz. unfold is_dot. by rewrite Hz.
Qed.

End pieces.

Ltac norm_lits :=
  repeat match goal with
  | |- context [lit ?w] =>
      let v := eval vm_compute in (lit w) in change (lit w) with v
  | H : context [lit ?w] |- _ =>
      let v := eval vm_compute in (lit w) in change (lit w) with v in H
  end.

(** Evaluate the tests on known code units. *)
Ltac eval_tests :=
  repeat match goal with
  | |- context [if ?b then _ else _] =>
      let v := eval vm_compute in b in
      match v with
      | true => change b with true
      | false => change b with false
      end; cbv iota
  end.

Section units.
Context (inp : str).
Implicit Types (k : cont) (s : str) (c : captures).

(** "stars" *)
Lemma run_stars_or_5_stars k u s c res :
  ci_word "stars" u → k s c = Some res →
  run inp stars_or_5 k (u ++ s) c = Some res.
Proof.
  intros Hu Hk. unfold ci_word, stars_or_5 in *. norm_lits.
  repeat (apply Forall2_cons_inv_r in Hu as (? & ? & ? & Hu & ->)).
  apply Forall2_nil_inv_r in Hu as ->.
  unfold stars_or_5, Opt, LitI. cbn [run WordI lit app]. cbn.
  repeat match goal with H : is_ci _ _ = true |- _ => rewrite H; clear H end.
  by rewrite Hk.
Qed.

(** "star", not followed by an s *)
Lemma run_stars_or_5_star k u s c res :
  ci_word "star" u → starts_off (is_ci 115) s → k s c = Some res →
  run inp stars_or_5 k (u ++ s) c = Some res.
Proof.
  intros Hu Hs Hk. unfold ci_word, stars_or_5 in *. norm_lits.
  repeat (apply Forall2_cons_inv_r in Hu as (? & ? & ? & Hu & ->)).
  apply Forall2_nil_inv_r in Hu as ->.
  unfold stars_or_5, Opt, LitI. cbn [run WordI lit app]. cbn.
  repeat match goal with H : is_ci _ _ = true |- _ => rewrite H; clear H end.
  destruct s as [|y s]; cbn in *; [by rewrite Hk|]. by rewrite Hs, Hk.
Qed.

(** "/5" *)
Lemma run_stars_or_5_slash k s c res :
  k s c = Some res →
  run inp stars_or_5 k (lit "/5" ++ s) c = Some res.
Proof.
  intros Hk. unfold stars_or_5. norm_lits. cbn [run WordI LitI Lit Opt app].
  eval_tests. by rewrite Hk.
Qed.

(** neither *)
Lemma run_stars_or_5_skip k s c :
  starts_off (is_ci 115) s → starts_off (Z.eqb 47) s →
  run inp stars_or_5 k s c = k s c.
Proof.
  intros H1 H2. unfold stars_or_5. norm_lits.
  destruct s as [|x s]; [done|]. cbn in *. by rewrite H1, H2.
Qed.
End units.

Section pattern1.
Context (inp : str).
Implicit Types (k : cont) (s : str) (c : captures).

Lemma run_tail cm t c :
  tail cm t →
  run inp (Cat [dash_comment; Eol]) accept t c = Some (with_comment cm c).
Proof.
  intros [|ws1 d ws2 cm' H1 Hd H2 Hcm Hl]; [done|].
  rewrite run_Cat_cons.
  erewrite run_dash_comment_some; try done.
  by destruct Hcm as (x & y & s1 & s2 & -> & _).
Qed.

(** [[\/\s]*(?:stars?|\/5)?] followed by the tail, after the digit. *)
Lemma run_after_digit_bare cm t c :
  tail cm t →
  run inp (Cat [Star is_slash_or_space; stars_or_5; dash_comment; Eol])
      accept t c = Some (with_comment cm c).
Proof.
  intros Ht. rewrite run_Cat_cons.
  destruct Ht as [|ws1 d ws2 cm H1 Hd H2 Hcm Hl]; [done|].
  apply star_loop_greedy.
  - eapply Forall_impl; [exact H1|]. apply space_slash_or_space.
  - by apply dash_not_slash_or_space.
  - rewrite run_Cat_cons, run_stars_or_5_skip.
    + apply (run_tail cm ([] ++ [d] ++ ws2 ++ cm) c).
      apply tail_comment; try done. apply Forall_nil_2.
    + cbn [starts_off app]. chars.
    + cbn [starts_off app]. chars.
Qed.
End pattern1.

Section pattern1_more.
Context (inp : str).
Implicit Types (k : cont) (s : str) (c : captures).

Lemma tail_starts_off p cm t :
  tail cm t →
  (∀ x, is_space x = true → p x = false) →
  (∀ x, is_dash x = true → p x = false) →
  starts_off p t.
Proof.
  intros [|[|w ws1] d ws2 cm' H1 Hd H2 Hcm Hl] Hsp Hdash; cbn; [done|auto|].
  apply Hsp. by apply Forall_cons in H1 as [? _].
Qed.

Lemma run_after_digit_stars cm t ws u c :
  spaces ws → ci_word "stars" u ∨ ci_word "star" u → tail cm t →
  run inp (Cat [Star is_slash_or_space; stars_or_5; dash_comment; Eol])
      accept (ws ++ u ++ t) c = Some (with_comment cm c).
Proof.
  intros Hws Hu Ht. rewrite run_Cat_cons.
  apply star_loop_greedy.
  - eapply Forall_impl; [exact Hws|]. apply space_slash_or_space.
  - destruct Hu as [Hu|Hu]; unfold ci_word in Hu; norm_lits;
      apply Forall2_cons_inv_r in Hu as (? & ? & ? & Hu & ->);
      cbn [starts_off app]; chars.
  - rewrite run_Cat_cons. destruct Hu as [Hu|Hu].
    + apply run_stars_or_5_stars; [done|]. by apply run_tail.
    + apply run_stars_or_5_star; [done| |by apply run_tail].
      eapply tail_starts_off; [done|intros; chars..].
Qed.

Lemma run_after_digit_slash cm t ws c :
  spaces ws → tail cm t →
  run inp (Cat [Star is_slash_or_space; stars_or_5; dash_comment; Eol])
      accept (ws ++ lit "/5" ++ t) c = Some (with_comment cm c).
Proof.
  intros Hws Ht. rewrite run_Cat_cons.
  apply star_loop_app.
  - eapply Forall_impl; [exact Hws|]. apply space_slash_or_space.
  - pose proof (run_tail inp _ _ c Ht) as Hrun.
    pose proof (run_stars_or_5_slash inp _ _ _ _ Hrun) as Hrun'.
    rewrite <-run_Cat_cons in Hrun'.
    set (K := run inp (Cat [stars_or_5; dash_comment; Eol]) accept) in *.
    norm_lits. cbn [app star_loop]. eval_tests.
    assert (K (53 :: t) c = None) as ->; [|done].
    unfold K, stars_or_5, dash_comment. norm_lits.
    cbn [Cat foldr run WordI LitI Lit Opt app star_loop]. by eval_tests.
Qed.
End pattern1_more.

Section pattern2.
Context (inp : str).
Implicit Types (k : cont) (s : str) (c : captures).

Lemma run_label lbl k s c res :
  ci_word "rating" lbl ∨ ci_word "score" lbl → k s c = Some res →
  run inp (Alt (WordI (lit "rating")) (WordI (lit "score"))) k (lbl ++ s) c
  = Some res.
Proof.
  intros [Hl|Hl] Hk; cbn [run].
  - by rewrite (run_WordI inp _ _ lbl), Hk by exact Hl.
  - rewrite (run_WordI inp (lit "score") _ lbl), Hk by exact Hl.
    unfold ci_word in Hl. norm_lits.
    apply Forall2_cons_inv_r in Hl as (x & ? & Hx & _ & ->).
    cbn [WordI LitI run app].
    replace (is_ci 114 x) with false by (symmetry; chars). done.
Qed.

Lemma label_starts_off p lbl s :
  ci_word "rating" lbl ∨ ci_word "score" lbl →
  (∀ x, is_ci 114 x = true ∨ is_ci 115 x = true → p x = false) →
  starts_off p (lbl ++ s).
Proof.
  intros Hl Hp. unfold ci_word in Hl. norm_lits.
  destruct Hl as [Hl|Hl];
    apply Forall2_cons_inv_r in Hl as (x & ? & Hx & _ & ->); cbn; auto.
Qed.

Lemma run_pattern2 lbl ws dg cm t c :
  ci_word "rating" lbl ∨ ci_word "score" lbl → spaces ws →
  is_digit dg = true → tail cm t →
  run inp pattern2 accept (lbl ++ lit ":" ++ ws ++ [dg] ++ t) c
  = Some (with_comment cm (<[1%nat := [dg]]> c)).
Proof.
  intros Hl Hws Hdg Ht. unfold pattern2. rewrite run_Cat_cons.
  apply run_label; [done|]. norm_lits.
  rewrite run_Cat_cons. cbn [Lit run app]. eval_tests.
  rewrite run_Cat_cons. apply star_loop_greedy; [done|cbn; chars|].
  rewrite run_Cat_cons. cbn [app]. rewrite run_Group_Chr by done.
  by apply run_tail.
Qed.
End pattern2.

Lemma search_here inp r s res :
  run inp r accept s ∅ = Some res → search inp r s = Some res.
Proof. intros H. destruct s; cbn [search]; by rewrite H. Qed.

Lemma parseInt_digit dg :
  is_digit dg = true → parseInt [dg] = Some (dg - 48).
Proof. intros H. cbn. rewrite H. f_equal; lia. Qed.

Lemma drop_spaces_starts_off s : starts_off is_space s → drop_spaces s = s.
Proof. destruct s as [|x s]; [done|]. cbn. by intros ->. Qed.

Lemma trim_id s :
  starts_off is_space s → starts_off is_space (rev s) → trim s = s.
Proof.
  intros H1 H2. unfold trim.
  by rewrite (drop_spaces_starts_off s), (drop_spaces_starts_off (rev s)), rev_involutive.
Qed.

Lemma ends_off_rev p s : ends_off p s → starts_off p (rev s).
Proof. intros (s0 & y & -> & Hy). by rewrite rev_app_distr. Qed.

Lemma ends_off_app p s1 s2 : ends_off p s2 → ends_off p (s1 ++ s2).
Proof. intros (s0 & y & -> & Hy). exists (s1 ++ s0), y. by rewrite app_assoc. Qed.

Lemma ci_word_ends_off w u p :
  Forall2 (λ x y, is_ci y x = true) u w → w ≠ [] →
  (∀ x y, y ∈ w → is_ci y x = true → p x = false) →
  ends_off p u.
Proof.
  intros H Hne Hp. induction H as [|x y u w Hxy H IH]; [done|].
  destruct H as [|x' y' u w Hxy' H].
  - exists [], x. split; [done|]. eapply Hp; [|done]. apply list_elem_of_here.
  - apply (ends_off_app p [x]). apply IH; [done|].
    intros ????. eapply Hp; [|done]. by apply list_elem_of_further.
Qed.

Lemma rating_text_trimmed r t :
  1 <= r <= 5 → rating_text r t →
  starts_off is_space t ∧ ends_off is_space t.
Proof.
  intros Hr [|ws u Hws Hu|ws Hws|lbl ws Hl Hws].
  - split; [cbn; chars|]. exists [], (48 + r). split; [done|chars].
  - split; [cbn; chars|]. rewrite app_assoc. apply ends_off_app.
    destruct Hu as [Hu|Hu]; (eapply ci_word_ends_off; [exact Hu|done|]);
      vm_compute lit; intros x y Hy Hxy;
      repeat (apply elem_of_cons in Hy as [->|Hy]); try (by apply elem_of_nil in Hy);
      chars.
  - split; [cbn; chars|]. rewrite app_assoc. apply ends_off_app.
    exists [47], 53. done.
  - split.
    + apply label_starts_off; [done|]. intros x [Hx|Hx]; chars.
    + rewrite !app_assoc. apply ends_off_app. exists [], (48 + r). split; [done|chars].
Qed.

Lemma tail_trimmed cm t : tail cm t → t = [] ∨ ends_off is_space t.
Proof.
  intros [|ws1 d ws2 cm' H1 Hd H2 (x & y & s1 & s2 & _ & -> & _ & Hy) Hl]; [by left|right].
  rewrite !app_assoc. apply ends_off_app. by exists [], y.
Qed.

Lemma accepted_trim r t cm tl :
  1 <= r <= 5 → rating_text r t → tail cm tl → trim (t ++ tl) = t ++ tl.
Proof.
  intros Hr Ht Htl. destruct (rating_text_trimmed r t Hr Ht) as [Hs He].
  apply trim_id.
  - destruct t; [by destruct He as ([|??] & ? & ? & _)|done].
  - apply ends_off_rev. destruct (tail_trimmed _ _ Htl) as [->|Hend].
    + by rewrite app_nil_r.
    + by apply ends_off_app.
Qed.

Lemma exec_pattern1 dg mid cm tl :
  is_digit dg = true →
  (∀ c, run ([dg] ++ mid ++ tl)
            (Cat [Star is_slash_or_space; stars_or_5; dash_comment; Eol])
            accept (mid ++ tl) c = Some (with_comment cm c)) →
  exec pattern1 ([dg] ++ mid ++ tl) = Some (with_comment cm (<[1%nat := [dg]]> ∅)).
Proof.
  intros Hdg Hrun. unfold pattern1.
  change (Cat (Bol :: ?rs)) with (Seq Bol (Cat rs)). rewrite exec_Bol.
  rewrite run_Cat_cons. cbn [app]. rewrite run_Group_Chr by done. apply Hrun.
Qed.

Lemma exec_pattern1_letter x s :
  is_digit x = false → exec pattern1 (x :: s) = None.
Proof.
  intros Hx. unfold pattern1.
  change (Cat (Bol :: ?rs)) with (Seq Bol (Cat rs)). rewrite exec_Bol.
  rewrite run_Cat_cons. cbn [run]. by rewrite Hx.
Qed.

Lemma attempt_found p f input dg cm :
  exec p input = Some (with_comment cm (<[1%nat := [dg]]> ∅)) →
  is_digit dg = true → 1 <= dg - 48 <= 5 →
  f (with_comment cm (<[1%nat := [dg]]> ∅)) = cm →
  attempt p f input = Some (Parsed (dg - 48) cm).
Proof.
  intros Hexec Hdg Hr Hf. unfold attempt. rewrite Hexec.
  assert (rating_of (with_comment cm (<[1%nat := [dg]]> ∅)) = Some (dg - 48)) as ->.
  { unfold rating_of, with_comment. destruct cm.
    - rewrite lookup_insert_eq. by apply parseInt_digit.
    - rewrite lookup_insert_ne, lookup_insert_eq by done. by apply parseInt_digit. }
  cbn. rewrite Hf.
  replace (1 <=? dg - 48) with true by (symmetry; apply Z.leb_le; lia).
  replace (dg - 48 <=? 5) with true by (symmetry; apply Z.leb_le; lia). done.
Qed.

Lemma or_else_with_comment cm c :
  c !! 2%nat = None → or_else (with_comment cm c !! 2%nat) [] = cm.
Proof.
  intros Hc. destruct cm as [|x cm]; cbn.
  - by rewrite Hc.
  - by rewrite lookup_insert_eq.
Qed.

Lemma accepted_inv r cm input :
  accepted (λ cm, free_text cm ∧ single_line cm) r cm input →
  ∃ t tl, input = t ++ tl ∧ rating_text r t ∧ tail cm tl.
Proof.
  intros [t Ht|t ws1 d ws2 cm' Ht H1 Hd H2 [Hcm Hl]].
  - exists t, []. rewrite app_nil_r. repeat split; [done|constructor].
  - exists t, (ws1 ++ [d] ++ ws2 ++ cm'). repeat split; [done|by constructor].
Qed.

(** C1 (amended). For every rating r in 1..5 written in one of the accepted
    forms ("4", "4 stars", "4/5", "Rating: 4", "Score: 4", each optionally
    followed by a dash and a comment), [parseUserFeedback] returns exactly
    [{rating: r, comment}], where the comment is the text after the dash when
    that text is on one line, and the empty string when there is no dash and
    comment. *)
Theorem parseUserFeedback_accepted r cm input :
  1 <= r <= 5 →
  accepted (λ cm, free_text cm ∧ single_line cm) r cm input →
  parseUserFeedback input = Some (Parsed r cm).
Proof.
  intros Hr (t & tl & -> & Ht & Htl)%accepted_inv.
  unfold parseUserFeedback. rewrite (accepted_trim r t cm tl) by done.
  assert (Hdg : is_digit (48 + r) = true) by chars.
  destruct Ht as [|ws u Hws Hu|ws Hws|lbl ws Hl Hws].
  - rewrite (attempt_found pattern1 _ _ (48 + r) cm); [do 2 f_equal; lia| |done|lia|].
    + apply (exec_pattern1 _ []); [done|]. intros c. by apply run_after_digit_bare.
    + by apply or_else_with_comment.
  - rewrite (attempt_found pattern1 _ _ (48 + r) cm); [do 2 f_equal; lia| |done|lia|].
    + rewrite <-!app_assoc. apply exec_pattern1; [done|]. intros c.
      by apply run_after_digit_stars.
    + by apply or_else_with_comment.
  - rewrite (attempt_found pattern1 _ _ (48 + r) cm); [do 2 f_equal; lia| |done|lia|].
    + rewrite <-!app_assoc. apply exec_pattern1; [done|]. intros c.
      by apply run_after_digit_slash.
    + by apply or_else_with_comment.
  - assert (attempt pattern1 (λ m, or_else (m !! 2%nat) [])
              ((lbl ++ lit ":" ++ ws ++ [48 + r]) ++ tl) = None) as ->.
    { unfold attempt.
      pose proof (label_starts_off is_digit lbl
                    ((lit ":" ++ ws ++ [48 + r]) ++ tl) Hl) as Hs.
      rewrite <-app_assoc.
      destruct (lbl ++ (lit ":" ++ ws ++ [48 + r]) ++ tl) as [|x s]; [done|].
      rewrite exec_pattern1_letter; [done|]. apply Hs. intros y [Hy|Hy]; chars. }
    rewrite (attempt_found pattern2 _ _ (48 + r) cm); [do 2 f_equal; lia| |done|lia|].
    + unfold exec. apply search_here. rewrite <-!app_assoc.
      by apply run_pattern2.
    + by apply or_else_with_comment.
Qed.

Lemma parseUserFeedback_accepted_witness :
  parseUserFeedback (lit "4 - could be more detailed")
  = Some (Parsed 4 (lit "could be more detailed")).
Proof.
  apply (parseUserFeedback_accepted 4); [lia|].
  apply (acc_comment _ 4 [48 + 4] [32] 45 [32] (lit "could be more detailed"));
    [apply rt_bare | by repeat constructor | reflexivity | by repeat constructor |].
  split.
  - by exists 99, 100, (lit "ould be more detailed"), (lit "could be more detaile").
  - vm_compute lit. repeat (constructor; [reflexivity|]). constructor.
Defined.

(** As stated, with any free text for a comment, C1 fails: [.] does not match
    a line terminator, so a comment of two lines is not parsed at all. *)
Lemma parseUserFeedback_multiline_comment :
  accepted free_text 4 (lit "too slow" ++ [10] ++ lit "and too long")
           (lit "4 - too slow" ++ [10] ++ lit "and too long")
  ∧ parseUserFeedback (lit "4 - too slow" ++ [10] ++ lit "and too long") = None.
Proof.
  split; [|vm_compute; reflexivity].
  apply (acc_comment _ 4 [48 + 4] [32] 45 [32]
           (lit "too slow" ++ [10] ++ lit "and too long"));
    [apply rt_bare | by repeat constructor | reflexivity | by repeat constructor |].
  by exists 116, 103, (lit "oo slow" ++ [10] ++ lit "and too long"),
            (lit "too slow" ++ [10] ++ lit "and too lon").
Qed.

(** ** What a match can capture *)

Section soundness.
Context (inp : str).

Lemma caps_in_insert n g c :
  g ⊆ inp → caps_in inp c → caps_in inp (<[n := g]> c).
Proof.
  intros Hg Hc m g' Hm. destruct (decide (n = m)) as [->|Hne].
  - rewrite lookup_insert_eq in Hm. by injection Hm as <-.
  - rewrite lookup_insert_ne in Hm by done. by eapply Hc.
Qed.

Lemma tail_subseteq (x : Z) s : s ⊆ x :: s.
Proof. intros y Hy. by apply list_elem_of_further. Qed.


Lemma star_loop_sound p k : ksound inp k → ksound inp (star_loop p k).
Proof.
  intros Hk s. induction s as [|x s IH]; intros c res Hs Hc; cbn.
  - by apply Hk.
  - destruct (p x); [|by apply Hk].
    destruct (star_loop p k s c) as [res'|] eqn:E.
    + intros [= <-]. eapply IH; [|done..]. by etrans; [apply tail_subseteq|].
    + by apply Hk.
Qed.

Lemma run_sound r k : ksound inp k → ksound inp (run inp r k).
Proof.
  revert k. induction r as [p| |r1 IH1 r2 IH2|r1 IH1 r2 IH2|p|n r IH| |];
    intros k Hk s c res Hs Hc; cbn [run].
  - destruct s as [|x s]; [done|]. destruct (p x); [|done].
    apply Hk; [|done]. by etrans; [apply tail_subseteq|].
  - by apply Hk.
  - by apply IH1; [apply IH2|..].
  - destruct (run inp r1 k s c) as [res'|] eqn:E.
    + intros [= <-]. by eapply IH1.
    + by apply IH2.
  - by apply star_loop_sound.
  - apply IH; [|done..]. intros s' c' res' Hs' Hc'.
    apply Hk; [done|]. apply caps_in_insert; [|done].
    by etrans; [apply subseteq_take|].
  - destruct (decide _); [by apply Hk|done].
  - destruct s; [by apply Hk|done].
Qed.

Lemma search_sound r s res :
  s ⊆ inp → search inp r s = Some res → caps_in inp res.
Proof.
  induction s as [|x s IH]; intros Hs; cbn [search];
    destruct (run inp r accept _ ∅) as [res'|] eqn:E.
  - intros [= <-]. eapply (run_sound r accept); [|done| |done].
    + by intros ???? Hc [= <-].
    + by intros ?? ?%lookup_empty_Some.
  - done.
  - intros [= <-]. eapply (run_sound r accept); [|done| |done].
    + by intros ???? Hc [= <-].
    + by intros ?? ?%lookup_empty_Some.
  - apply IH. by etrans; [apply tail_subseteq|].
Qed.
End soundness.

Lemma exec_sound r inp res : exec r inp = Some res → caps_in inp res.
Proof. by apply search_sound. Qed.

Lemma digits_value_small acc s v :
  0 <= acc → digits_value acc s = v → 1 <= v <= 5 → acc = v ∨ 48 + v ∈ s.
Proof.
  revert acc. induction s as [|x s IH]; intros acc Hacc Hv Hr; cbn in Hv; [by left|].
  destruct (is_digit x) eqn:Hx; [|by left].
  right. destruct (IH (10 * acc + (x - 48))) as [Heq|Hin]; [chars|done|done| |].
  - replace (48 + v) with x by chars. apply list_elem_of_here.
  - by apply list_elem_of_further.
Qed.

Lemma parseInt_small g r :
  parseInt g = Some r → 1 <= r <= 5 → 48 + r ∈ g.
Proof.
  unfold parseInt. destruct g as [|x g]; [done|].
  destruct (is_digit x); [|done]. intros [= Hv] Hr.
  destruct (digits_value_small 0 (x :: g) r) as [?|?]; [lia|done|done|lia|done].
Qed.

Lemma drop_spaces_subseteq s : drop_spaces s ⊆ s.
Proof.
  induction s as [|x s IH]; [done|]. cbn. destruct (is_space x); [|done].
  by etrans; [|apply tail_subseteq].
Qed.

Lemma trim_subseteq s : trim s ⊆ s.
Proof.
  unfold trim. intros x Hx.
  apply list_elem_of_In, in_rev, list_elem_of_In, drop_spaces_subseteq in Hx.
  apply list_elem_of_In, in_rev, list_elem_of_In, drop_spaces_subseteq in Hx. done.
Qed.

Lemma attempt_sound p f input res :
  attempt p f input = Some res →
  1 <= rating res <= 5 ∧ 48 + rating res ∈ input.
Proof.
  unfold attempt. destruct (exec p input) as [m|] eqn:E; [|done].
  destruct (rating_of m) as [r|] eqn:Er; [|done]. cbn.
  destruct ((1 <=? r) && (r <=? 5)) eqn:Hr; [|done]. intros [= <-]. cbn.
  assert (1 <= r <= 5) by chars. split; [done|].
  unfold rating_of in Er. destruct (m !! 1%nat) as [g|] eqn:Eg; [|done].
  cbn in Er. apply (exec_sound _ _ _ E _ _ Eg). by apply parseInt_small.
Qed.

(** A rating the parser returns is in 1..5 and its digit stands in the
    input. *)
Lemma parseUserFeedback_sound s res :
  parseUserFeedback s = Some res →
  1 <= rating res <= 5 ∧ 48 + rating res ∈ s.
Proof.
  unfold parseUserFeedback.
  repeat match goal with
  | |- context [attempt ?p ?f ?i] =>
      let E := fresh "E" in
      destruct (attempt p f i) eqn:E;
      [ intros [= <-]; apply attempt_sound in E as [? ?];
        split; [done | by apply trim_subseteq]
      | ]
  end.
  done.
Qed.

(** C2. An input that contains no digit, or whose digits are all outside
    1..5, makes [parseUserFeedback] return [null]: no rating is clamped,
    rounded or guessed. *)
Theorem parseUserFeedback_no_rating_digit s :
  (∀ x, x ∈ s → ¬ 49 <= x <= 53) → parseUserFeedback s = None.
Proof.
  intros Hs. destruct (parseUserFeedback s) as [res|] eqn:E; [|done].
  apply parseUserFeedback_sound in E as [Hr Hin].
  destruct (Hs _ Hin). lia.
Qed.

Lemma parseUserFeedback_no_rating_digit_witness :
  parseUserFeedback (lit "banana") = None ∧ parseUserFeedback (lit "7") = None.
Proof.
  split; apply parseUserFeedback_no_rating_digit; intros x Hx;
    vm_compute in Hx; repeat (apply elem_of_cons in Hx as [->|Hx]; [lia|]);
    by apply elem_of_nil in Hx.
Defined.

(** ** The stores *)

Import Store.

Lemma hoursAgo_expired now t :
  (24 < hoursAgo now t)%Q ↔ 24 * 3600000 < now - t.
Proof.
  unfold hoursAgo. change (inject_Z (1000 * 60 * 60)) with (3600000 # 1)%Q.
  unfold Qlt, Qdiv, Qmult, Qinv, inject_Z. cbn [Qnum Qden]. lia.
Qed.

(** C6. An auth file whose [lastLoginTime] is more than 24 hours before the
    time of loading makes [loadAuthData] return the default logged-out
    structure; within 24 hours it returns the stored data. *)
Theorem loadAuthData_expiry now data t :
  lastLoginTime data = Some t →
  (24 * 3600000 < now - t →
     loadAuthData now (Some data) = AuthData false [] None None None)
  ∧ (now - t <= 24 * 3600000 → loadAuthData now (Some data) = data).
Proof.
  intros Ht. unfold loadAuthData.
  change (load (Some data) defaultAuthData) with data. cbv zeta. rewrite Ht.
  destruct (Qlt_le_dec 24 (hoursAgo now t)) as [Hlt|Hle].
  - apply hoursAgo_expired in Hlt. split; [done|lia].
  - split; [|done]. intros Hexp. apply hoursAgo_expired in Hexp.
    by apply Qle_not_lt in Hle.
Qed.

Lemma loadAuthData_expiry_witness :
  let stale := AuthData true [lit "sid=1"] (Some (lit "tok")) None (Some 0) in
  loadAuthData (30 * 3600000) (Some stale) = AuthData false [] None None None
  ∧ loadAuthData (23 * 3600000) (Some stale) = stale.
Proof.
  intros stale. split.
  - apply (loadAuthData_expiry (30 * 3600000) stale 0); [reflexivity|lia].
  - apply (loadAuthData_expiry (23 * 3600000) stale 0); [reflexivity|lia].
Defined.

(** ** Conversations *)

Lemma human_or_ai_type m :
  human_or_ai m →
  getMessageType (Some m) = lit "human" ∨ getMessageType (Some m) = lit "ai".
Proof. intros [c|c tcs]; [by left|by right]. Qed.

(** What [serializeMessage] writes of such a message is read back as the
    message itself. *)
Lemma deserialize_serialize now m :
  human_or_ai m → deserializeMessage (serializeMessage now m) = m.
Proof.
  intros [c|c tcs]; unfold deserializeMessage, serializeMessage;
    cbn [md_type md_content md_tool_calls getMessageType HumanMessage
         content_of tool_calls_of].
  - by rewrite (bool_decide_eq_true_2 (lit "human" = lit "human")).
  - rewrite (bool_decide_eq_false_2 (lit "ai" = lit "human")) by done.
    by rewrite (bool_decide_eq_true_2 (lit "ai" = lit "ai")).
Qed.

Lemma map_messages_id {M} (f : M → M) (conv : conversation M) :
  Forall (λ m, f m = m) (messages conv) → map_messages f conv = conv.
Proof.
  intros Hf. destruct conv as [i t ms c u]. unfold map_messages. cbn in *.
  f_equal. rewrite <-(list_fmap_id ms) at 2. by apply Forall_fmap_ext_1.
Qed.

(** C3. Saving conversations whose messages are of type human or ai and
    loading them again gives back the conversations that were saved: each
    with the same number of messages in the same order, and each message
    with its type, its content, its tool calls and its [tool_call_id]
    unchanged. *)
Theorem save_load_round_trip now file convs :
  Forall (λ conv, Forall human_or_ai (messages conv)) convs →
  loadConversations (saveConversations now true file convs).1 = convs
  ∧ Forall2 (λ conv conv',
      conv_id conv' = conv_id conv ∧ title conv' = title conv
      ∧ createdAt conv' = createdAt conv ∧ updatedAt conv' = updatedAt conv
      ∧ Forall2 same_message (messages conv) (messages conv'))
    convs
    (loadConversations (saveConversations now true file convs).1).
Proof.
  intros Hconvs.
  assert (Hid : loadConversations (saveConversations now true file convs).1
                = convs).
  { unfold loadConversations, saveConversations, save, load.
    cbn [fst default]. unfold id. rewrite <-list_fmap_compose.
    rewrite <-(list_fmap_id convs) at 2. apply Forall_fmap_ext_1.
    eapply Forall_impl; [exact Hconvs|]. intros conv Hms. cbn.
    transitivity (map_messages (deserializeMessage ∘ serializeMessage now) conv).
    - unfold map_messages. cbn. f_equal. by rewrite <-list_fmap_compose.
    - apply map_messages_id. eapply Forall_impl; [exact Hms|].
      intros m Hm. by apply deserialize_serialize. }
  split; [done|]. rewrite Hid.
  apply Forall_Forall2_diag, Forall_forall. intros conv _.
  do 4 (split; [done|]).
  apply Forall_Forall2_diag, Forall_forall. intros m _. by repeat split.
Qed.

Lemma save_load_round_trip_witness :
  let convs :=
    [Conversation (lit "1752780277309") (lit "hello")
       [HumanMessage (lit "hello");
        LangChain (lit "ai") (lit "")
          (Some [ToolCall (lit "calculator") (lit "{}") (lit "call_1")]) None;
        AIMessage (lit "The result is 42.")]
       (lit "2025-07-17T19:24:37.309Z") (lit "2025-07-17T19:24:37.309Z")] in
  loadConversations
    (saveConversations (lit "2025-07-17T19:25:00.000Z") true None convs).1
  = convs.
Proof.
  intros convs. apply save_load_round_trip.
  repeat apply Forall_cons_2; try apply Forall_nil_2; constructor.
Defined.

(** C5. [addConversation] on a store that holds [maxHistorySize] = 100
    conversations leaves exactly 100 in the file: the new one first, then the
    first 99 of the old ones in their order; the last old one is dropped. *)
Theorem addConversation_at_capacity d stored msgs ttl :
  writes d = true → length stored = maxHistorySize →
  let new :=
    Conversation (of_int (Date_now d))
      (if truthy ttl then default [] ttl else generateTitle (locale d) msgs)
      (serializeMessage (iso d) <$> msgs) (iso d) (iso d) in
  let rest :=
    map_messages (serializeMessage (iso d) ∘ deserializeMessage)
      <$> take 99 stored in
  addConversation d (Some stored) msgs ttl = (Some (new :: rest), conv_id new)
  ∧ length (new :: rest) = maxHistorySize
  ∧ conv_id <$> rest = take 99 (conv_id <$> stored)
  ∧ ∃ oldest, stored = take 99 stored ++ [oldest].
Proof.
  intros Hw Hlen new rest. unfold maxHistorySize in *. repeat split.
  - unfold addConversation, saveConversations, save, loadConversations, load.
    rewrite Hw. cbn [default fst]. unfold maxHistorySize.
    change (id stored) with stored.
    rewrite (proj2 (Nat.ltb_lt _ _)) by (cbn [length]; rewrite length_fmap; lia).
    f_equal. f_equal.
    change 100%nat with (S 99). cbn [take fmap list_fmap].
    f_equal. rewrite <-fmap_take, <-list_fmap_compose.
    apply list_fmap_ext. intros _ conv _. unfold map_messages. cbn.
    f_equal. by rewrite <-list_fmap_compose.
  - cbn [length]. unfold rest. rewrite length_fmap, length_take. lia.
  - unfold rest. rewrite <-list_fmap_compose. by rewrite fmap_take.
  - destruct (drop 99 stored) as [|oldest [|??]] eqn:E;
      pose proof (f_equal length E) as Hl; rewrite length_drop in Hl;
      cbn in Hl; try lia.
    exists oldest. by rewrite <-E, take_drop.
Qed.

Lemma addConversation_at_capacity_witness :
  let d := Disk 1752780277309 (lit "2025-07-17T19:24:37.309Z")
                (lit "7/17/2025, 7:24:37 PM") true in
  let stored :=
    (λ i, Conversation (of_int (Z.of_nat i)) (lit "old") []
                       (lit "2025-07-01") (lit "2025-07-01")) <$> seq 0 100 in
  conv_id <$> default [] (addConversation d (Some stored) [HumanMessage (lit "hi")] None).1
  = of_int 1752780277309 :: take 99 (conv_id <$> stored).
Proof.
  intros d stored.
  destruct (addConversation_at_capacity d stored [HumanMessage (lit "hi")] None)
    as (Hadd & _ & Hids & _); [reflexivity | reflexivity |].
  rewrite Hadd. cbn [fst default fmap list_fmap conv_id]. by rewrite <-Hids.
Defined.

(** ** Run identifiers *)

Lemma is_uuid_nil : is_uuid [] = false.
Proof. reflexivity. Qed.

Lemma hex_digit_is_hex v : 0 <= v < 16 → is_hex (hex_digit v) = true.
Proof. intros. unfold is_hex, hex_digit. chars. Qed.

Lemma hex_digit_is_89ab v :
  0 <= v < 16 → is_89ab (hex_digit (Z.lor (Z.land v 3) 8)) = true.
Proof.
  intros Hv.
  assert (Hcases : Forall (λ v, is_89ab (hex_digit (Z.lor (Z.land v 3) 8)) = true)
                     (seqZ 0 16)) by (vm_compute; repeat constructor).
  rewrite Forall_forall in Hcases. apply Hcases. apply elem_of_seqZ. lia.
Qed.


(** [c{n}] takes the next [n] code units when they are all [c]'s. *)
Lemma run_Rep_Chr inp n p k s c :
  length (take n s) = n → Forall (λ x, p x = true) (take n s) →
  run inp (Rep n (Chr p)) k s c = k (drop n s) c.
Proof.
  revert s. induction n as [|n IH]; intros s Hlen Hs; [done|].
  destruct s as [|x s]; [done|]. cbn [take] in *.
  apply Forall_cons in Hs as [Hx Hs]. cbn [Rep run drop]. rewrite Hx.
  apply IH; [|done]. cbn in Hlen. lia.
Qed.

Lemma fill_template_x tpl rnd i :
  fill_template (120 :: tpl) rnd i
  = hex_digit (rnd i) :: fill_template tpl rnd (S i).
Proof. done. Qed.

Lemma fill_template_y tpl rnd i :
  fill_template (121 :: tpl) rnd i
  = hex_digit (Z.lor (Z.land (rnd i) 3) 8) :: fill_template tpl rnd (S i).
Proof. done. Qed.

Lemma fill_template_other c tpl rnd i :
  c ≠ 120 → c ≠ 121 →
  fill_template (c :: tpl) rnd i = c :: fill_template tpl rnd i.
Proof.
  intros H1 H2. cbn [fill_template].
  by rewrite (proj2 (Z.eqb_neq _ _) H1), (proj2 (Z.eqb_neq _ _) H2).
Qed.

Lemma generateUUID_is_uuid rnd :
  (∀ i, 0 <= rnd i < 16) → is_uuid (generateUUID rnd) = true.
Proof.
  intros Hrnd. unfold is_uuid, test. apply bool_decide_eq_true_2.
  unfold uuidRegex. change (Cat (Bol :: ?rs)) with (Seq Bol (Cat rs)).
  rewrite exec_Bol. unfold generateUUID. norm_lits.
  repeat first [ rewrite fill_template_x | rewrite fill_template_y
               | rewrite fill_template_other by done ].
  cbn [fill_template].
  repeat first
    [ rewrite run_Cat_cons, run_Rep_Chr;
      [ cbn [drop]
      | reflexivity
      | cbn [take]; repeat apply Forall_cons_2; try apply Forall_nil_2;
        by apply hex_digit_is_hex ]
    | rewrite run_Cat_cons; cbn [run Lit]; eval_tests ].
  rewrite hex_digit_is_89ab by apply Hrnd. done.
Qed.

(** The fresh identifier is made of the draws: thirty of its digits are the
    draws themselves, the variant digit is 8 + the two low bits of a draw. *)
Lemma generateUUID_draws rnd :
  let h i := hex_digit (rnd i) in
  generateUUID rnd
  = (h <$> seq 0 8) ++ [45] ++ (h <$> seq 8 4) ++ [45; 52] ++ (h <$> seq 12 3)
    ++ [45; hex_digit (Z.lor (Z.land (rnd 15%nat) 3) 8)] ++ (h <$> seq 16 3)
    ++ [45] ++ (h <$> seq 19 12).
Proof.
  intros h. unfold generateUUID. norm_lits.
  repeat first [ rewrite fill_template_x | rewrite fill_template_y
               | rewrite fill_template_other by done ].
  reflexivity.
Qed.

(** One call of [feedbackData.runId || getRunIdFromContext(threadManager)]
    gives the explicitly supplied [runId] if present; otherwise the
    identifier of the active trace if it is a valid UUID; otherwise the
    current thread identifier if it is a valid UUID; otherwise a fresh
    [generateUUID()], which is a valid UUID. *)
Lemma resolveRunId_precedence w n fd tm :
  resolveRunId w n fd tm
  = resolve_by_precedence (fd_runId fd) (current_run_tree_id w)
      (tm ≫= currentThreadId) (generateUUID (random16 w n))
  ∧ ((∀ i, 0 <= random16 w n i < 16) →
     is_uuid (generateUUID (random16 w n)) = true).
Proof.
  split; [|apply generateUUID_is_uuid].
  unfold resolveRunId, resolve_by_precedence, getRunIdFromContext, getCurrentRunId.
  destruct (fd_runId fd) as [[|c e]|]; cbn [truthy default];
    fold is_uuid;
    (destruct (current_run_tree_id w) as [[|c' id]|]; cbn [truthy andb];
     [ rewrite ?is_uuid_nil
     | fold (is_uuid (c' :: id)); destruct (is_uuid (c' :: id)); cbn [truthy default]; [done|]
     | ]);
    (destruct tm as [[[[|c'' tid]|]]|]; cbn [mbind option_bind currentThreadId truthy default];
     rewrite ?is_uuid_nil; done).
Qed.

(** ** Collecting feedback *)

Lemma starts_with_app p s : starts_with p (p ++ s) = true.
Proof. induction p as [|x p IH]; [done|]. cbn. by rewrite Z.eqb_refl. Qed.

Lemma includes_here s p : starts_with p s = true → includes s p = true.
Proof. intros H. destruct s; cbn in *; by rewrite H. Qed.

Lemma includes_app a p b : includes (a ++ p ++ b) p = true.
Proof.
  induction a as [|x a IH]; cbn [app].
  - apply includes_here, starts_with_app.
  - cbn [includes]. rewrite IH. apply orb_true_r.
Qed.

Lemma submitted_message_confirms r : confirms r (submitted_message r).
Proof.
  split; [done|]. unfold submitted_message.
  rewrite (app_assoc [9989]). apply includes_app.
Qed.

Lemma failed_message_confirms r err : confirms r (failed_message r err).
Proof.
  split; [done|]. unfold failed_message.
  rewrite (app_assoc [55357; 56541]). apply includes_app.
Qed.

Lemma local_message_confirms r reason : confirms r (local_message r reason).
Proof.
  split; [done|]. unfold local_message.
  rewrite (app_assoc [55357; 56541]). apply includes_app.
Qed.

Lemma truthy_default (v : option str) : truthy v = true → truthy (Some (default [] v)) = true.
Proof. by destruct v as [[|??]|]. Qed.

Lemma generateUUID_truthy rnd : truthy (Some (generateUUID rnd)) = true.
Proof. unfold generateUUID. norm_lits. by rewrite fill_template_x. Qed.

(** The run identifier is never empty, so [if (this.langsmithClient && runId)]
    tests the client only. *)
Lemma resolveRunId_truthy w n fd tm : truthy (Some (resolveRunId w n fd tm)) = true.
Proof.
  unfold resolveRunId, getRunIdFromContext.
  destruct (truthy (fd_runId fd)) eqn:E1; [by apply truthy_default|].
  destruct (truthy (getCurrentRunId w)) eqn:E2; [by apply truthy_default|].
  destruct tm as [tm|]; [|apply generateUUID_truthy].
  destruct (truthy (currentThreadId tm)) eqn:E3; [|apply generateUUID_truthy].
  destruct (test uuidRegex _); [by apply truthy_default|apply generateUUID_truthy].
Qed.

Lemma local_id_nonempty w n : local_id w n ≠ [].
Proof. done. Qed.

Lemma initialize_set_pending w remote svc id fb n :
  langsmithClient (initialize w remote (set_pending svc id fb n))
  = langsmithClient (initialize w remote svc).
Proof.
  unfold initialize, set_pending. cbn [isInitialized langsmithClient].
  by repeat case_match.
Qed.

Lemma initialize_pending w remote svc :
  pendingFeedback (initialize w remote svc) = pendingFeedback svc.
Proof. unfold initialize. by repeat case_match. Qed.

Lemma valid_rating_Some r : 1 <= r <= 5 → valid_rating (Some r) = true.
Proof. intros. cbn. apply andb_true_iff. split; apply Z.leb_le; lia. Qed.

(** Two units of fuel always suffice: the retry runs with a client, and a
    call with a client does not call again. *)
Lemma collectFeedback_returns fuel w remote svc fd tm :
  is_Some (collectFeedback (S (S fuel)) w remote svc fd tm).
Proof.
  cbn [collectFeedback]. destruct (negb _); [done|].
  destruct (langsmithClient svc) as [cl|].
  - by repeat case_match.
  - destruct (langsmithClient (initialize _ _ _)) as [cl|] eqn:Hcl; [|done].
    rewrite (resolveRunId_truthy w (reads svc) fd tm
             : truthy (Some (runId (make_feedback w (reads svc) fd tm))) = true).
    by repeat case_match.
Qed.

(** With a client at hand nothing is retried: one unit of fuel is enough. *)
Lemma collectFeedback_with_client fuel w remote svc fd tm cl :
  langsmithClient svc = Some cl →
  collectFeedback (S fuel) w remote svc fd tm
  = collectFeedback 1 w remote svc fd tm.
Proof. intros Hcl. cbn [collectFeedback]. by rewrite Hcl. Qed.

(** The call retries itself at most once: two units of fuel are all that any
    call needs, which is what the command line interface gives it. *)
Lemma collectFeedback_fuel fuel w remote svc fd tm :
  collectFeedback (S (S fuel)) w remote svc fd tm
  = collectFeedback 2 w remote svc fd tm.
Proof.
  cbn [collectFeedback]. destruct (negb _); [done|].
  destruct (langsmithClient svc) as [cl|]; [done|].
  destruct (langsmithClient (initialize _ _ _)) as [cl|] eqn:Hcl; [|done].
  by destruct (truthy _).
Qed.

(** C4. For a valid rating, [collectFeedback] with a client whose
    [createFeedback] resolves with a record identifier returns
    [submitted = true] and that identifier; with a client whose
    [createFeedback] rejects, or with no client and none to be had from
    [initialize], it returns [submitted = false] and a local identifier that
    is not empty, under which the feedback is pending; and in each case the
    message is not empty and shows the star count. *)
Theorem collectFeedback_outcomes fuel w remote svc fd tm r :
  fd_starRating fd = Some r → 1 <= r <= 5 →
  let fb := make_feedback w (reads svc) fd tm in
  (∀ cl id,
     langsmithClient svc = Some cl →
     createFeedback cl (remote_payload fb) = Resolved (Some id) → id ≠ [] →
     ∃ svc' res,
       collectFeedback (S fuel) w remote svc fd tm = Some (svc', Return res)
       ∧ submitted res = true ∧ feedbackId res = Some id
       ∧ confirms r (Feedback.message res))
  ∧ (∀ cl err,
     langsmithClient svc = Some cl →
     createFeedback cl (remote_payload fb) = Rejected err →
     ∃ svc' res lid,
       collectFeedback (S fuel) w remote svc fd tm = Some (svc', Return res)
       ∧ submitted res = false ∧ localId res = Some lid ∧ lid ≠ []
       ∧ pendingFeedback svc' !! lid = Some fb
       ∧ confirms r (Feedback.message res))
  ∧ (langsmithClient svc = None →
     langsmithClient (initialize w remote svc) = None →
     ∃ svc' res lid,
       collectFeedback (S fuel) w remote svc fd tm = Some (svc', Return res)
       ∧ submitted res = false ∧ localId res = Some lid ∧ lid ≠ []
       ∧ pendingFeedback svc' !! lid = Some fb
       ∧ confirms r (Feedback.message res)).
Proof.
  intros Hfd Hr fb.
  assert (Hrun : truthy (Some (runId fb)) = true) by apply resolveRunId_truthy.
  assert (Hstar : starRating fb = r) by (cbn; by rewrite Hfd).
  split; [|split].
  - intros cl id Hcl Hreply Hid. cbn [collectFeedback].
    rewrite Hfd, valid_rating_Some by done. cbn [negb]. fold fb.
    rewrite Hcl, Hrun, Hreply. eexists _, _.
    do 3 (split; [reflexivity|]).
    cbn [Feedback.message]. rewrite Hstar. apply submitted_message_confirms.
  - intros cl err Hcl Hreply. cbn [collectFeedback].
    rewrite Hfd, valid_rating_Some by done. cbn [negb]. fold fb.
    rewrite Hcl, Hrun, Hreply. eexists _, _, _.
    do 3 (split; [reflexivity|]).
    split; [apply local_id_nonempty|].
    split; [cbn; by rewrite lookup_insert_eq|].
    cbn [Feedback.message]. rewrite Hstar. apply failed_message_confirms.
  - intros Hcl Hinit. cbn [collectFeedback].
    rewrite Hfd, valid_rating_Some by done. cbn [negb]. fold fb.
    rewrite Hcl, initialize_set_pending, Hinit. eexists _, _, _.
    do 3 (split; [reflexivity|]).
    split; [apply local_id_nonempty|].
    split; [rewrite initialize_pending; cbn; by rewrite lookup_insert_eq|].
    cbn [Feedback.message]. rewrite Hstar. apply local_message_confirms.
Qed.

Lemma collectFeedback_outcomes_witness :
  let w := World None true None (λ _ _, 7) (λ _, lit "2025-07-17T19:24:37.309Z")
                 (λ _, 1752780277309) (λ _, lit "k3j9x1m2q") in
  let up := Client (λ _, Resolved (Some (lit "6f1b"))) in
  let down := Client (λ _, Rejected (lit "fetch failed")) in
  let fd := FeedbackData (Some 4) (Some (lit "could be more detailed")) None None in
  (∃ svc' res,
     collectFeedback 1 w up (Service (Some up) true ∅ 0) fd None
     = Some (svc', Return res) ∧ submitted res = true)
  ∧ (∃ svc' res,
     collectFeedback 1 w down (Service (Some down) true ∅ 0) fd None
     = Some (svc', Return res) ∧ submitted res = false)
  ∧ (∃ svc' res,
     collectFeedback 1 w up (Service None true ∅ 0) fd None
     = Some (svc', Return res) ∧ submitted res = false).
Proof.
  intros w up down fd. split; [|split].
  - destruct (collectFeedback_outcomes 0 w up (Service (Some up) true ∅ 0) fd None 4)
      as (H & _ & _); [reflexivity | lia |].
    destruct (H up (lit "6f1b")) as (svc' & res & ? & ? & _);
      [reflexivity | reflexivity | done |]. by exists svc', res.
  - destruct (collectFeedback_outcomes 0 w down (Service (Some down) true ∅ 0) fd None 4)
      as (_ & H & _); [reflexivity | lia |].
    destruct (H down (lit "fetch failed")) as (svc' & res & lid & ? & ? & _);
      [reflexivity | reflexivity |]. by exists svc', res.
  - destruct (collectFeedback_outcomes 0 w up (Service None true ∅ 0) fd None 4)
      as (_ & _ & H); [reflexivity | lia |].
    destruct H as (svc' & res & lid & ? & ? & _);
      [reflexivity | reflexivity |]. by exists svc', res.
Defined.

(** C8. On the retry after a lazy initialization the thread identifier is
    not looked at.  A service that has not been initialized, an API key in
    the environment, no [runId], no active trace, and a thread manager whose
    thread id is a valid UUID: by the precedence the thread id is the run
    id, and a service that has its client submits under it; but the retry
    [this.collectFeedback(feedbackData)] leaves the thread manager out, and
    the feedback is submitted under a fresh UUID, without thread context. *)
Theorem collectFeedback_retry_drops_thread :
  let tid := lit "123e4567-e89b-42d3-a456-426614174000" in
  let w := World (Some (lit "lsv2_key")) true None (λ _ i, Z.of_nat i mod 16)
                 (λ _, lit "2025-07-17T19:24:37.309Z") (λ _, 1752780277309)
                 (λ _, lit "k3j9x0a1b") in
  let remote := Client (λ _, Resolved (Some (lit "fb-1"))) in
  let fd := FeedbackData (Some 4) None None None in
  let tm := Some (ThreadManager (Some tid)) in
  (∀ fresh, resolve_by_precedence (fd_runId fd) (current_run_tree_id w)
                                  (tm ≫= currentThreadId) fresh = tid)
  ∧ match collectFeedback 2 w remote (Service (Some remote) true ∅ 0) fd tm with
    | Some (_, Return res) =>
        submitted res = true ∧ r_runId res = Some tid
        ∧ threadId (r_feedback res) = Some tid
    | _ => False
    end
  ∧ match collectFeedback 2 w remote new_service fd tm with
    | Some (_, Return res) =>
        submitted res = true
        ∧ r_runId res = Some (generateUUID (random16 w 2))
        ∧ r_runId res ≠ Some tid
        ∧ threadId (r_feedback res) = None
    | _ => False
    end.
Proof.
  intros tid w remote fd tm. split; [|split].
  - intros fresh. reflexivity.
  - vm_compute. by repeat split.
  - vm_compute. repeat split. discriminate.
Qed.

(** ** The command line interface *)

Import App Cli.

Lemma flags_inv_consistent st : flags_inv st → flags_consistent st.
Proof.
  intros [Hc Hn]. repeat split.
  - intros [Hf Hw]. destruct (Hc Hw) as [Hf' _]. congruence.
  - intros Hw. by destruct (Hc Hw).
  - auto.
Qed.

Lemma flags_inv_same st st' :
  isWaitingForFeedback st' = isWaitingForFeedback st →
  isWaitingForComment st' = isWaitingForComment st →
  pendingRating st' = pendingRating st →
  flags_inv st → flags_inv st'.
Proof. unfold flags_inv. by intros -> -> ->. Qed.

Lemma comment_step_inv t input st :
  flags_inv st → flags_inv (comment_step t input st).1.
Proof.
  intros Hinv. unfold comment_step.
  destruct (collect _ _ _) as [svc' [res|e]]; cbn [fst].
  - split; [done|]. by intros _.
  - by eapply flags_inv_same.
Qed.

Lemma rating_step_inv t input st :
  isWaitingForComment st = false →
  flags_inv st → flags_inv (rating_step t input st).1.
Proof.
  intros Hw Hinv. unfold rating_step.
  destruct (parseUserFeedback input) as [p|].
  - destruct ((1 <=? rating p) && (rating p <=? 5)) eqn:Hr; cbn [fst].
    + split; [|done]. intros _. split; [done|]. exists (rating p).
      split; [done|]. apply andb_true_iff in Hr as [?%Z.leb_le ?%Z.leb_le]. lia.
    + by eapply flags_inv_same.
  - by eapply flags_inv_same.
Qed.

Lemma workflow_step_inv t input st :
  isWaitingForComment st = false →
  flags_inv st → flags_inv (workflow_step t input st).1.
Proof.
  intros Hw Hinv. unfold workflow_step.
  destruct (processMessageWithThread _ _ _) as [response|e]; cbn [fst]; [|done].
  destruct (includes response _).
  - destruct Hinv as [_ Hn]. split; cbn; [congruence|done].
  - by eapply flags_inv_same.
Qed.

Lemma processUserInput_inv t input st :
  flags_inv st → flags_inv (processUserInput t input st).
Proof.
  intros Hinv. unfold processUserInput.
  set (st1 := push (HumanMessage input) st).
  assert (Hinv1 : flags_inv st1) by by eapply flags_inv_same.
  assert (Hstep : flags_inv
    (if isWaitingForComment st1 then comment_step t input st1
     else if isWaitingForFeedback st1 then rating_step t input st1
     else workflow_step t input st1).1).
  { destruct (isWaitingForComment st1) eqn:Hc; [by apply comment_step_inv|].
    destruct (isWaitingForFeedback st1);
      [by apply rating_step_inv|by apply workflow_step_inv]. }
  destruct (if isWaitingForComment st1 then _ else _) as [st' [[]|e]];
    cbn [fst] in Hstep; [done|]. by eapply flags_inv_same.
Qed.

Lemma handleSpecialCommands_inv t input st st' :
  handleSpecialCommands t input st = Some st' → flags_inv st → flags_inv st'.
Proof.
  unfold handleSpecialCommands. intros Hcmd Hinv.
  repeat case_match; simplify_eq; by eapply flags_inv_same.
Qed.

Lemma mainLoop_step_inv st ev : flags_inv st → flags_inv (mainLoop_step st ev).
Proof.
  intros Hinv. unfold mainLoop_step.
  destruct (handleSpecialCommands _ _ _) eqn:E.
  - by eapply handleSpecialCommands_inv.
  - by apply processUserInput_inv.
Qed.

Lemma foldl_mainLoop_inv evs st :
  flags_inv st → flags_inv (foldl mainLoop_step st evs).
Proof.
  revert st. induction evs as [|ev evs IH]; intros st Hinv; [done|].
  cbn [foldl]. by apply IH, mainLoop_step_inv.
Qed.

(** C10. After any sequence of inputs to the main loop, [isWaitingForFeedback]
    and [isWaitingForComment] are not both true; when [isWaitingForComment]
    is true, [pendingRating] is an integer in 1..5; and when neither is true,
    [pendingRating] is [null]. *)
Theorem feedback_flags_consistent evs : flags_consistent (run_inputs evs).
Proof.
  apply flags_inv_consistent, foldl_mainLoop_inv. split; [done|]. by intros _.
Qed.

(** When a normal input is processed and the workflow invocation fails,
    that is [processMessageWithThread] throws, whatever the error, the user
    message pushed at the start is popped again: the interface is as it was
    before the input, and a retry that succeeds adds the turn once. *)
Lemma processUserInput_rolls_back t input st e :
  isWaitingForComment st = false → isWaitingForFeedback st = false →
  processMessageWithThread (t_app_isInitialized t) (t_threadManager_isReady t)
    (t_workflow t) = Throw e →
  processUserInput t input st = st
  ∧ ∀ t' response,
      processMessageWithThread (t_app_isInitialized t')
        (t_threadManager_isReady t') (t_workflow t') = Return response →
      currentMessages (processUserInput t' input (processUserInput t input st))
      = currentMessages st ++ [HumanMessage input; AIMessage response].
Proof.
  intros Hc Hf Hthrow.
  assert (Hsame : processUserInput t input st = st).
  { unfold processUserInput, workflow_step. cbn [push isWaitingForComment isWaitingForFeedback].
    rewrite Hc, Hf, Hthrow. destruct st as [ms wf wc r run svc]. unfold pop. cbn.
    by rewrite removelast_last. }
  split; [done|]. intros t' response Hret. rewrite Hsame.
  unfold processUserInput, workflow_step. cbn [push isWaitingForComment isWaitingForFeedback].
  rewrite Hc, Hf, Hret. destruct (includes response _); cbn; by rewrite <-app_assoc.
Qed.

(** C9. No invocation fails for taking too long.  The race against the
    30000 ms timer is in [Application.processInput], which
    [processUserInput] does not call: it awaits [processMessageWithThread],
    which has no timer.  An invocation that takes 31 s and then answers is
    rejected with a timeout by [processInput]; the interface waits for it
    and keeps the user message and the answer, so that no timeout is
    reported and nothing is rolled back. *)
Theorem processUserInput_has_no_time_budget :
  let w := World None true None (λ _ _, 7) (λ _, []) (λ _, 0) (λ _, []) in
  let slow := Invocation 31000 (Return (lit "ok")) in
  let t := Turn w (Client (λ _, Resolved None)) true true
                (ThreadManager (Some (lit "thread-1752780277309"))) slow None in
  processInput true slow = Throw (lit "Request timeout (30 seconds)")
  ∧ processMessageWithThread true true slow = Return (lit "ok")
  ∧ currentMessages (processUserInput t (lit "hello") new_cli)
    = [HumanMessage (lit "hello"); AIMessage (lit "ok")]
  ∧ currentMessages (processUserInput t (lit "hello") new_cli)
    ≠ currentMessages new_cli.
Proof.
  intros w slow t. split; [reflexivity|]. split; [reflexivity|].
  assert (Hturn : currentMessages (processUserInput t (lit "hello") new_cli)
                  = [HumanMessage (lit "hello"); AIMessage (lit "ok")])
    by (vm_compute; reflexivity).
  split; [exact Hturn|]. rewrite Hturn. discriminate.
Qed.

(* ===================================================================== *)
(** * The rest of the stores, the service and the interface               *)
(* ===================================================================== *)

(** ** Showing a message *)

(** X1. [formatMessageForDisplay] never shows more than [maxLength] code
    units of the content and three dots; a content that fits is shown whole,
    and what is shown of a longer one is its beginning. *)
Theorem formatMessageForDisplay_bounded message maxLength :
  let content := getMessageContent message in
  let shown := formatMessageForDisplay message maxLength in
  (length shown ≤ Z.to_nat maxLength + 3)%nat
  ∧ (Z.of_nat (length content) <= maxLength → shown = content)
  ∧ (maxLength < Z.of_nat (length content) →
     shown = take (Z.to_nat maxLength) content ++ lit "..."
     ∧ length shown = (Z.to_nat maxLength + 3)%nat).
Proof.
  intros content shown. unfold shown, formatMessageForDisplay. fold content.
  destruct (Z.leb_spec (Z.of_nat (length content)) maxLength) as [Hle|Hgt].
  - split; [lia|]. split; [done|lia].
  - assert (length (take (Z.to_nat maxLength) content ++ lit "...")
            = (Z.to_nat maxLength + 3)%nat) as Hlen.
    { rewrite length_app, length_take. cbn [lit length]. change (length (lit "...")) with 3%nat. lia. }
    split; [lia|]. split; [lia|done].
Qed.

Lemma formatMessageForDisplay_bounded_witness :
  formatMessageForDisplay (Some (HumanMessage (lit "hello world"))) 5
  = lit "hello...".
Proof.
  destruct (formatMessageForDisplay_bounded
              (Some (HumanMessage (lit "hello world"))) 5) as (_ & _ & Hlong).
  destruct Hlong as [-> _]; [cbn; lia|reflexivity].
Defined.

(** ** Messages of other types *)

Lemma content_round_trip now m :
  content_of (deserializeMessage (serializeMessage now m)) = content_of m.
Proof.
  unfold deserializeMessage, serializeMessage. cbn [md_type md_content md_tool_calls].
  repeat case_match; done.
Qed.

Lemma getMessageType_Plain d :
  md_type d ≠ [] → getMessageType (Some (Plain d)) = md_type d.
Proof. cbn. by destruct (md_type d). Qed.

(** X2. A message that is neither human nor ai (a tool or a system message)
    comes back from the file as the plain object that was written: with its
    type, its content, its tool calls and its [tool_call_id]. *)
Theorem other_message_round_trip now m :
  getMessageType (Some m) ≠ lit "human" →
  getMessageType (Some m) ≠ lit "ai" →
  getMessageType (Some m) ≠ [] →
  let m' := deserializeMessage (serializeMessage now m) in
  m' = Plain (serializeMessage now m)
  ∧ getMessageType (Some m') = getMessageType (Some m)
  ∧ content_of m' = content_of m
  ∧ tool_calls_of m' = tool_calls_of m
  ∧ tool_call_id_of m' = or_null (tool_call_id_of m).
Proof.
  intros Hh Ha Hne m'. unfold m', deserializeMessage.
  cbn [serializeMessage md_type].
  rewrite (bool_decide_eq_false_2 _ Hh), (bool_decide_eq_false_2 _ Ha).
  split; [done|]. split; [|done].
  by apply (getMessageType_Plain (serializeMessage now m)).
Qed.

Lemma other_message_round_trip_witness :
  let m := LangChain (lit "tool") (lit "42") None (Some (lit "call_1")) in
  tool_call_id_of (deserializeMessage (serializeMessage (lit "now") m))
  = Some (lit "call_1").
Proof.
  intros m.
  by destruct (other_message_round_trip (lit "now") m) as (_ & _ & _ & _ & ->).
Defined.

(** X3. Saving what was loaded and loading it again changes nothing, when
    the stored messages are of type human or ai: a conversation is not worn
    down by the rewriting of the file at every save. *)
Lemma deserialize_fixed now d :
  md_type d = lit "human" ∨ md_type d = lit "ai" →
  deserializeMessage (serializeMessage now (deserializeMessage d))
  = deserializeMessage d.
Proof.
  intros [Ht|Ht]; unfold deserializeMessage; rewrite Ht.
  - by rewrite (bool_decide_eq_true_2 (lit "human" = lit "human")).
  - rewrite (bool_decide_eq_false_2 (lit "ai" = lit "human")) by done.
    rewrite (bool_decide_eq_true_2 (lit "ai" = lit "ai")) by done.
    by destruct (md_tool_calls d).
Qed.

Theorem load_save_load now stored :
  Forall (λ conv, Forall (λ d, md_type d = lit "human" ∨ md_type d = lit "ai")
                         (messages conv)) stored →
  loadConversations
    (saveConversations now true (Some stored) (loadConversations (Some stored))).1
  = loadConversations (Some stored).
Proof.
  intros Hst. unfold loadConversations, saveConversations, save, load.
  cbn [fst default]. unfold id. rewrite <-!list_fmap_compose.
  apply Forall_fmap_ext_1. eapply Forall_impl; [exact Hst|].
  intros [i t ms c u] Hms. unfold map_messages. cbn in *. f_equal.
  rewrite <-!list_fmap_compose. apply Forall_fmap_ext_1.
  eapply Forall_impl; [exact Hms|]. intros d Hd. cbn. by apply deserialize_fixed.
Qed.

Lemma load_save_load_witness :
  let stored :=
    [Conversation (lit "1") (lit "t")
       [MessageData (lit "human") (lit "hi") (lit "t0") None None;
        MessageData (lit "ai") (lit "hello") (lit "t0") None None]
       (lit "c") (lit "u")] in
  loadConversations
    (saveConversations (lit "t1") true (Some stored) (loadConversations (Some stored))).1
  = loadConversations (Some stored).
Proof.
  intros stored. apply load_save_load.
  repeat apply Forall_cons_2; try apply Forall_nil_2;
    first [left; reflexivity | right; reflexivity].
Defined.

(** ** Adding and finding a conversation *)

Lemma loadConversations_Some stored :
  loadConversations (Some stored) = map_messages deserializeMessage <$> stored.
Proof. done. Qed.

Lemma take_if {A} n (l : list A) :
  (if (n <? length l)%nat then take n l else l) = take n l.
Proof.
  destruct (Nat.ltb_spec n (length l)); [done|]. by rewrite take_ge.
Qed.

(** What a successful [addConversation] leaves to be loaded. *)
Lemma addConversation_loaded d file msgs ttl :
  writes d = true →
  loadConversations (addConversation d file msgs ttl).1
  = map_messages (deserializeMessage ∘ serializeMessage (iso d))
      <$> take maxHistorySize
            (Conversation (of_int (Date_now d))
               (if truthy ttl then default [] ttl else generateTitle (locale d) msgs)
               msgs (iso d) (iso d) :: loadConversations file).
Proof.
  intros Hw. unfold addConversation, saveConversations, save.
  rewrite Hw, take_if. cbn [fst]. rewrite loadConversations_Some.
  rewrite <-list_fmap_compose. apply list_fmap_ext. intros _ conv _.
  unfold map_messages. cbn. f_equal. by rewrite <-list_fmap_compose.
Qed.

Lemma contents_round_trip now (msgs : list message) :
  content_of <$> ((deserializeMessage ∘ serializeMessage now) <$> msgs)
  = content_of <$> msgs.
Proof.
  rewrite <-list_fmap_compose. apply list_fmap_ext. intros _ m _.
  apply content_round_trip.
Qed.

(** X4. The conversation [addConversation] has written is the most recent
    one of the store and the one found under the id returned, with the title
    given or generated and the contents of the messages in their order. *)
Theorem addConversation_found d file msgs ttl :
  writes d = true →
  ∃ conv,
    getConversationById (addConversation d file msgs ttl).1
                        (addConversation d file msgs ttl).2 = Some conv
    ∧ getRecentConversation (addConversation d file msgs ttl).1 = Some conv
    ∧ conv_id conv = (addConversation d file msgs ttl).2
    ∧ title conv
      = (if truthy ttl then default [] ttl else generateTitle (locale d) msgs)
    ∧ content_of <$> messages conv = content_of <$> msgs.
Proof.
  intros Hw. unfold getConversationById, getRecentConversation.
  rewrite addConversation_loaded by done.
  change maxHistorySize with (S 99). cbn [take fmap list_fmap].
  eexists. split.
  { cbn [list_find map_messages conv_id addConversation snd].
    rewrite decide_True by done. reflexivity. }
  split; [reflexivity|]. split; [reflexivity|]. split; [reflexivity|].
  cbn [messages map_messages]. apply contents_round_trip.
Qed.

Lemma addConversation_found_witness :
  let d := Disk 1752780277309 (lit "2025-07-17T19:24:37.309Z")
                (lit "7/17/2025, 7:24:37 PM") true in
  ∃ conv,
    getConversationById (addConversation d None [HumanMessage (lit "hi")] None).1
                        (of_int 1752780277309) = Some conv
    ∧ content_of <$> messages conv = [lit "hi"].
Proof.
  intros d.
  destruct (addConversation_found d None [HumanMessage (lit "hi")] None)
    as (conv & Hfind & _ & _ & _ & Hc); [reflexivity|].
  exists conv. split; [exact Hfind|exact Hc].
Defined.

(** X5. After a successful [addConversation] the store holds the new
    conversation followed by the ones it held, cut after [maxHistorySize] =
    100: nothing is dropped below the limit and the limit is never
    exceeded, whatever the file held before. *)
Theorem addConversation_bounded d file msgs ttl :
  writes d = true →
  conv_id <$> loadConversations (addConversation d file msgs ttl).1
  = take maxHistorySize
      ((addConversation d file msgs ttl).2 :: (conv_id <$> loadConversations file))
  ∧ length (loadConversations (addConversation d file msgs ttl).1)
    = (S (length (loadConversations file)) `min` maxHistorySize)%nat.
Proof.
  intros Hw. rewrite addConversation_loaded by done. split.
  - rewrite <-list_fmap_compose, fmap_take. done.
  - rewrite length_fmap, length_take. cbn [length]. lia.
Qed.

Lemma addConversation_bounded_witness :
  let d := Disk 1752780277309 (lit "2025-07-17T19:24:37.309Z")
                (lit "7/17/2025, 7:24:37 PM") true in
  let stored :=
    (λ i, Conversation (of_int (Z.of_nat i)) (lit "old") []
                       (lit "2025-07-01") (lit "2025-07-01")) <$> seq 0 150 in
  length (loadConversations (addConversation d (Some stored) [] None).1) = 100%nat.
Proof.
  intros d stored.
  destruct (addConversation_bounded d (Some stored) [] None) as [_ ->];
    [reflexivity|]. reflexivity.
Defined.

(** ** Updating a conversation *)

Lemma getConversationById_Some file conversationId conv :
  getConversationById file conversationId = Some conv
  ↔ ∃ i, list_find (λ conv, conv_id conv = conversationId)
                   (loadConversations file) = Some (i, conv).
Proof.
  unfold getConversationById. split.
  - intros ([i c] & Hf & Heq)%fmap_Some. cbn in Heq. subst c. by exists i.
  - intros [i ->]. done.
Qed.

(** What a successful [updateConversation] leaves to be loaded. *)
Lemma updateConversation_loaded d file conversationId msgs i found :
  writes d = true →
  list_find (λ conv, conv_id conv = conversationId) (loadConversations file)
  = Some (i, found) →
  (updateConversation d file conversationId msgs).2 = true
  ∧ loadConversations (updateConversation d file conversationId msgs).1
    = map_messages (deserializeMessage ∘ serializeMessage (iso d))
        <$> <[i := Conversation (conv_id found) (title found) msgs
                                (createdAt found) (iso d)]>
              (loadConversations file).
Proof.
  intros Hw Hfind. unfold updateConversation. rewrite Hfind. split; [done|].
  unfold saveConversations, save. rewrite Hw. cbn [fst].
  rewrite loadConversations_Some, <-list_fmap_compose.
  apply list_fmap_ext. intros _ conv _. unfold map_messages. cbn. f_equal.
  by rewrite <-list_fmap_compose.
Qed.

(** X6. [updateConversation] with an id the store does not hold returns
    false and leaves the file as it is. *)
Theorem updateConversation_unknown d file conversationId msgs :
  getConversationById file conversationId = None →
  updateConversation d file conversationId msgs = (file, false).
Proof.
  unfold getConversationById, updateConversation. intros Hnone.
  by destruct (list_find _ _) as [[i conv]|].
Qed.

Lemma updateConversation_unknown_witness :
  let d := Disk 1752780277309 (lit "2025-07-17T19:24:37.309Z")
                (lit "7/17/2025, 7:24:37 PM") true in
  let stored := [Conversation (lit "1") (lit "t") [] (lit "c") (lit "u")] in
  updateConversation d (Some stored) (lit "2") [HumanMessage (lit "hi")]
  = (Some stored, false).
Proof. intros d stored. by apply updateConversation_unknown. Defined.

(** X7. [updateConversation] with an id the store holds returns true and,
    when the file is written, changes the messages and [updatedAt] of the
    first conversation with that id and nothing else that is listed: the
    conversations keep their number, order, ids, titles and creation dates,
    and the others their contents. *)
Theorem updateConversation_known d file conversationId msgs :
  writes d = true →
  is_Some (getConversationById file conversationId) →
  let old := loadConversations file in
  let new := loadConversations (updateConversation d file conversationId msgs).1 in
  (updateConversation d file conversationId msgs).2 = true
  ∧ conv_id <$> new = conv_id <$> old
  ∧ title <$> new = title <$> old
  ∧ createdAt <$> new = createdAt <$> old
  ∧ (∃ conv, getConversationById (updateConversation d file conversationId msgs).1
                                 conversationId = Some conv
             ∧ content_of <$> messages conv = content_of <$> msgs
             ∧ updatedAt conv = iso d)
  ∧ (∀ i conv, old !! i = Some conv → conv_id conv ≠ conversationId →
       ∃ conv', new !! i = Some conv'
                ∧ content_of <$> messages conv' = content_of <$> messages conv
                ∧ updatedAt conv' = updatedAt conv).
Proof.
  intros Hw [found Hfound] old new.
  apply getConversationById_Some in Hfound as [i Hfind]. fold old in Hfind.
  set (conv' := Conversation (conv_id found) (title found) msgs
                             (createdAt found) (iso d)).
  set (f := map_messages (deserializeMessage ∘ serializeMessage (iso d))).
  destruct (updateConversation_loaded d file conversationId msgs i found Hw Hfind)
    as [Hret Hnew].
  fold old conv' f in Hnew. fold new in Hnew.
  apply list_find_Some in Hfind as (Hi & Hid & Hfirst).
  assert (Hlt : (i < length old)%nat) by (by eapply lookup_lt_Some).
  split; [done|].
  split; [|split; [|split; [|split]]].
  - rewrite Hnew, <-list_fmap_compose, list_fmap_insert. cbn.
    by apply list_insert_id, list_lookup_fmap_Some_2.
  - rewrite Hnew, <-list_fmap_compose, list_fmap_insert. cbn.
    by apply list_insert_id, list_lookup_fmap_Some_2.
  - rewrite Hnew, <-list_fmap_compose, list_fmap_insert. cbn.
    by apply list_insert_id, list_lookup_fmap_Some_2.
  - exists (f conv'). split; [|split; [apply contents_round_trip|done]].
    unfold getConversationById. fold new. rewrite Hnew, list_find_fmap.
    assert (list_find ((λ conv, conv_id conv = conversationId) ∘ f)
                      (<[i := conv']> old) = Some (i, conv')) as ->; [|done].
    apply list_find_Some. split; [by apply list_lookup_insert_eq|].
    split; [done|]. intros j y Hj Hji.
    rewrite list_lookup_insert_ne in Hj by lia. cbn. eauto.
  - intros j conv Hj Hne. assert (i ≠ j) by (intros ->; congruence).
    exists (f conv). rewrite Hnew. split.
    + by rewrite list_lookup_fmap, list_lookup_insert_ne, Hj by done.
    + split; [|done]. cbn [messages map_messages f]. apply contents_round_trip.
Qed.

Lemma updateConversation_known_witness :
  let d := Disk 1752780277309 (lit "2025-07-17T19:24:37.309Z")
                (lit "7/17/2025, 7:24:37 PM") true in
  let stored :=
    [Conversation (lit "1") (lit "a") [] (lit "c1") (lit "u1");
     Conversation (lit "2") (lit "b") [] (lit "c2") (lit "u2")] in
  conv_id <$> loadConversations
                (updateConversation d (Some stored) (lit "2")
                                    [HumanMessage (lit "hi")]).1
  = [lit "1"; lit "2"].
Proof.
  intros d stored.
  destruct (updateConversation_known d (Some stored) (lit "2")
              [HumanMessage (lit "hi")]) as (_ & Hids & _);
    [reflexivity | by eexists | exact Hids].
Defined.

(** ** Titles *)

(** X8. The title generated for a conversation that has a human message is
    taken from the first such message: it is that message's content when the
    content has at most 30 code units, its first 30 code units and three
    dots otherwise, and so never longer than 33. *)
Theorem generateTitle_human locale_now before m after :
  Forall (λ x, isHumanMessage x = false) before →
  isHumanMessage m = true →
  let title := generateTitle locale_now (before ++ m :: after) in
  (length title ≤ 33)%nat
  ∧ ((length (content_of m) ≤ 30)%nat → title = content_of m)
  ∧ ((30 < length (content_of m))%nat →
     title = take 30 (content_of m) ++ lit "...").
Proof.
  intros Hb Hm title.
  assert (Hfind : List.find isHumanMessage (before ++ m :: after) = Some m).
  { clear title. induction Hb as [|x before Hx _ IH]; cbn; [by rewrite Hm|].
    by rewrite Hx. }
  assert (Ht : title
    = if (30 <? length (content_of m))%nat
      then take 30 (content_of m) ++ lit "..." else take 30 (content_of m)).
  { unfold title, generateTitle. rewrite Hfind. by destruct before. }
  rewrite Ht. destruct (Nat.ltb_spec 30 (length (content_of m))) as [Hlt|Hle].
  - split; [|split; [lia|done]].
    rewrite length_app, length_take. change (length (lit "...")) with 3%nat. lia.
  - rewrite take_ge by done. split; [lia|]. split; [done|lia].
Qed.

Lemma generateTitle_human_witness :
  generateTitle (lit "7/17/2025") [AIMessage (lit "Welcome"); HumanMessage (lit "hello")]
  = lit "hello".
Proof.
  destruct (generateTitle_human (lit "7/17/2025") [AIMessage (lit "Welcome")]
              (HumanMessage (lit "hello")) []) as (_ & Hshort & _).
  - repeat constructor.
  - reflexivity.
  - apply Hshort. cbn. lia.
Defined.

(** ** Credentials *)

(** X9. What [saveAuthData] has written is what [loadAuthData] returns during
    the next 24 hours, with the time of saving as [lastLoginTime]; later it
    returns the logged-out default. *)
Theorem saveAuthData_window now later file data :
  let saved := AuthData (isLoggedIn data) (cookies data) (token data)
                        (userData data) (Some now) in
  (later - now <= 24 * 3600000 →
     loadAuthData later (saveAuthData now true file data).1 = saved)
  ∧ (24 * 3600000 < later - now →
     loadAuthData later (saveAuthData now true file data).1 = defaultAuthData).
Proof.
  intros saved. unfold saveAuthData, save, loadAuthData, load.
  cbn [fst default lastLoginTime]. unfold id. fold saved.
  change (lastLoginTime saved) with (Some now). cbv beta iota.
  destruct (Qlt_le_dec 24 (hoursAgo later now)) as [Hlt|Hle].
  - apply hoursAgo_expired in Hlt. split; [intros; lia|done].
  - split; [done|]. intros Hexp. apply hoursAgo_expired in Hexp.
    by apply Qle_not_lt in Hle.
Qed.

Lemma saveAuthData_window_witness :
  let data := AuthData true [lit "sid=1"] (Some (lit "tok")) None None in
  loadAuthData (23 * 3600000) (saveAuthData 0 true None data).1
  = AuthData true [lit "sid=1"] (Some (lit "tok")) None (Some 0)
  ∧ loadAuthData (25 * 3600000) (saveAuthData 0 true None data).1
    = defaultAuthData.
Proof.
  intros data.
  destruct (saveAuthData_window 0 (23 * 3600000) None data) as [Hin _].
  destruct (saveAuthData_window 0 (25 * 3600000) None data) as [_ Hout].
  split; [apply Hin; lia | apply Hout; lia].
Defined.

(** X10. [hasValidAuth] is false when there is no auth file, when the stored
    login is older than 24 hours, and after [clearAuthData] has written the
    file; a stored login of the last 24 hours is valid exactly when it is
    logged in with a token or a cookie. *)
Theorem hasValidAuth_cases now file data t :
  hasValidAuth now None = false
  ∧ hasValidAuth now (clearAuthData true file).1 = false
  ∧ (lastLoginTime data = Some t → 24 * 3600000 < now - t →
     hasValidAuth now (Some data) = false)
  ∧ (lastLoginTime data = Some t → now - t <= 24 * 3600000 →
     hasValidAuth now (Some data)
     = isLoggedIn data && (truthy (token data) || (0 <? length (cookies data))%nat)).
Proof.
  split; [done|]. split; [done|].
  unfold hasValidAuth, loadAuthData, load. cbn [default]. unfold id.
  split; intros -> Ht; destruct (Qlt_le_dec 24 (hoursAgo now t)) as [Hlt|Hle];
    try done.
  - exfalso. apply hoursAgo_expired in Ht. by apply Qle_not_lt in Hle.
  - apply hoursAgo_expired in Hlt. lia.
Qed.

Lemma hasValidAuth_cases_witness :
  let stale := AuthData true [lit "sid=1"] (Some (lit "tok")) None (Some 0) in
  hasValidAuth (30 * 3600000) (Some stale) = false
  ∧ hasValidAuth (23 * 3600000) (Some stale) = true.
Proof.
  intros stale.
  destruct (hasValidAuth_cases (30 * 3600000) None stale 0) as (_ & _ & Hout & _).
  destruct (hasValidAuth_cases (23 * 3600000) None stale 0) as (_ & _ & _ & Hin).
  split; [apply Hout; [reflexivity|lia] | rewrite Hin; [reflexivity|reflexivity|lia]].
Defined.

(** ** Patterns of fixed shape *)

(** A pattern that asks for one code unit after the other matches exactly
    the texts that begin with one code unit of each of its classes. *)
Lemma run_classes inp r : ∀ ps k s c res,
  classes r = Some ps →
  run inp r k s c = Some res
  ↔ ∃ pre post, s = pre ++ post ∧ in_classes ps pre ∧ k post c = Some res.
Proof.
  unfold in_classes.
  induction r as [p| |r1 IH1 r2 IH2| | | | |]; intros ps k s c res Hps;
    try discriminate Hps.
  - injection Hps as <-. split.
    + destruct s as [|x s']; [done|]. cbn. destruct (p x) eqn:Hx; [|done].
      intros Hk. exists [x], s'. split; [done|]. split; [|done].
      by repeat constructor.
    + intros (pre & post & -> & Hin & Hk).
      apply Forall2_cons_inv_l in Hin as (x & pre' & Hx & Hnil & ->).
      apply Forall2_nil_inv_l in Hnil as ->. cbn. by rewrite Hx.
  - injection Hps as <-. split.
    + intros Hk. exists [], s. split; [done|]. split; [constructor|done].
    + intros (pre & post & -> & Hin & Hk).
      by apply Forall2_nil_inv_l in Hin as ->.
  - cbn in Hps. apply bind_Some in Hps as (ps1 & H1 & Hps).
    apply bind_Some in Hps as (ps2 & H2 & [= <-]).
    cbn [run]. rewrite (IH1 ps1) by done. split.
    + intros (pre1 & post1 & -> & Hin1 & Hk1).
      apply (IH2 ps2) in Hk1 as (pre2 & post & -> & Hin2 & Hk); [|done].
      exists (pre1 ++ pre2), post. rewrite app_assoc. split; [done|].
      split; [by apply Forall2_app|done].
    + intros (pre & post & -> & Hin & Hk).
      apply Forall2_app_inv_l in Hin as (pre1 & pre2 & Hin1 & Hin2 & ->).
      exists pre1, (pre2 ++ post). rewrite <-app_assoc. split; [done|].
      split; [done|]. apply (IH2 ps2); [done|]. by exists pre2, post.
Qed.

(** The same for such patterns in a row, before the rest of a pattern. *)
Lemma run_foldr_classes inp rs pss tl :
  Forall2 (λ r ps, classes r = Some ps) rs pss →
  ∀ k s c res,
  run inp (foldr Seq tl rs) k s c = Some res
  ↔ ∃ pre post, s = pre ++ post ∧ in_classes (concat pss) pre
                ∧ run inp tl k post c = Some res.
Proof.
  unfold in_classes.
  induction 1 as [|r ps rs pss Hr _ IH]; intros k s c res; cbn [foldr concat].
  - split.
    + intros Hk. exists [], s. split; [done|]. split; [constructor|done].
    + intros (pre & post & -> & Hin & Hk).
      by apply Forall2_nil_inv_l in Hin as ->.
  - cbn [run]. rewrite (run_classes inp r ps) by done. split.
    + intros (pre1 & post1 & -> & Hin1 & Hk1).
      apply IH in Hk1 as (pre2 & post & -> & Hin2 & Hk).
      exists (pre1 ++ pre2), post. rewrite app_assoc. split; [done|].
      split; [by apply Forall2_app|done].
    + intros (pre & post & -> & Hin & Hk).
      apply Forall2_app_inv_l in Hin as (pre1 & pre2 & Hin1 & Hin2 & ->).
      exists pre1, (pre2 ++ post). rewrite <-app_assoc. split; [done|].
      split; [done|]. apply IH. by exists pre2, post.
Qed.

(** ** Run identifiers, continued *)

(** The UUID pattern, by its classes. *)
Lemma test_uuidRegex s : test uuidRegex s = true ↔ in_classes uuid_classes s.
Proof.
  unfold test. rewrite bool_decide_eq_true.
  change uuidRegex with
    (Seq Bol (foldr Seq (Seq Eol Eps)
       [Rep 8 (Chr is_hex); Lit 45; Rep 4 (Chr is_hex); Lit 45;
        Chr is_1_to_5; Rep 3 (Chr is_hex); Lit 45;
        Chr is_89ab; Rep 3 (Chr is_hex); Lit 45; Rep 12 (Chr is_hex)])).
  rewrite exec_Bol. unfold is_Some.
  setoid_rewrite (run_foldr_classes s _
    [replicate 8 is_hex; [Z.eqb 45]; replicate 4 is_hex; [Z.eqb 45];
     [is_1_to_5]; replicate 3 is_hex; [Z.eqb 45];
     [is_89ab]; replicate 3 is_hex; [Z.eqb 45]; replicate 12 is_hex]);
    [|repeat constructor].
  split.
  - intros (res & pre & post & -> & Hin & Hend).
    destruct post; [|done]. by rewrite app_nil_r.
  - intros Hin. exists ∅, s, []. rewrite app_nil_r. by split.
Qed.

(** X11. The UUID pattern accepts exactly the texts of 36 code units that
    have hexadecimal digits in groups of 8, 4, 4, 4 and 12 with hyphens
    between, a version digit 1 to 5 and a variant digit 8, 9, a or b. *)
Theorem uuidRegex_shape s :
  (test uuidRegex s = true ↔ in_classes uuid_classes s)
  ∧ (test uuidRegex s = true → length s = 36%nat).
Proof.
  split; [apply test_uuidRegex|]. intros Hs%test_uuidRegex.
  by apply Forall2_length in Hs as <-.
Qed.

Lemma uuidRegex_shape_witness :
  in_classes uuid_classes (lit "123e4567-e89b-42d3-a456-426614174000").
Proof.
  apply (proj1 (uuidRegex_shape (lit "123e4567-e89b-42d3-a456-426614174000"))).
  reflexivity.
Defined.

(** X12. Whatever [getRunIdFromContext] returns is accepted by the UUID
    pattern: the identifier of the trace and the thread identifier are only
    taken when they are, and the fresh identifier always is. *)
Theorem getRunIdFromContext_is_uuid w n tm :
  (∀ i, 0 <= random16 w n i < 16) →
  test uuidRegex (getRunIdFromContext w n tm) = true.
Proof.
  intros Hrnd. pose proof (generateUUID_is_uuid _ Hrnd) as Hfresh.
  unfold is_uuid in Hfresh.
  unfold getRunIdFromContext, getCurrentRunId.
  destruct (current_run_tree_id w) as [id|].
  - destruct (truthy (Some id) && test uuidRegex id) eqn:E.
    + apply andb_true_iff in E as [Ht E]. by rewrite Ht.
    + cbn [truthy]. destruct tm as [tm|]; [|done].
      destruct (truthy (currentThreadId tm)); [|done].
      by destruct (test uuidRegex (default [] (currentThreadId tm))) eqn:E'.
  - cbn [truthy]. destruct tm as [tm|]; [|done].
    destruct (truthy (currentThreadId tm)); [|done].
    by destruct (test uuidRegex (default [] (currentThreadId tm))) eqn:E'.
Qed.

Lemma getRunIdFromContext_is_uuid_witness :
  let w := World None true (Some (lit "not-a-uuid")) (λ _ i, Z.of_nat i mod 16)
                 (λ _, []) (λ _, 0) (λ _, []) in
  test uuidRegex
    (getRunIdFromContext w 0 (Some (ThreadManager (Some (lit "thread-1752780277309")))))
  = true.
Proof.
  intros w. apply getRunIdFromContext_is_uuid.
  intros i. apply Z.mod_pos_bound. lia.
Defined.

(** ** Initialization *)

(** X13. [initialize] takes effect once: afterwards the service is
    initialized and keeps its pending feedback, and a later [initialize]
    changes nothing, whatever the environment has become. *)
Theorem initialize_once w remote w' remote' svc :
  isInitialized (initialize w remote svc) = true
  ∧ pendingFeedback (initialize w remote svc) = pendingFeedback svc
  ∧ initialize w' remote' (initialize w remote svc) = initialize w remote svc.
Proof.
  assert (Hinit : isInitialized (initialize w remote svc) = true).
  { unfold initialize. by repeat case_match. }
  split; [done|]. split; [apply initialize_pending|].
  unfold initialize at 1. by rewrite Hinit.
Qed.

(** ** Collecting feedback, continued *)

(** X14. [collectFeedback] throws exactly when the rating is not an integer
    from 1 to 5, and then it has changed nothing; otherwise it returns a
    result with [success: true]. *)
Theorem collectFeedback_throws fuel w remote svc fd tm :
  match collectFeedback (S (S fuel)) w remote svc fd tm with
  | Some (svc', Throw e) =>
      valid_rating (fd_starRating fd) = false ∧ svc' = svc
      ∧ e = lit "Star rating must be between 1 and 5"
  | Some (svc', Return res) =>
      valid_rating (fd_starRating fd) = true ∧ success res = true
  | None => False
  end.
Proof.
  rewrite collectFeedback_fuel. cbn [collectFeedback].
  destruct (valid_rating (fd_starRating fd)) eqn:Hv; cbn [negb]; [|done].
  destruct (langsmithClient svc) as [cl|].
  - rewrite (resolveRunId_truthy w (reads svc) fd tm
             : truthy (Some (runId (make_feedback w (reads svc) fd tm))) = true).
    by destruct (createFeedback cl _).
  - destruct (langsmithClient (initialize _ _ _)) as [cl|]; [|done].
    rewrite (resolveRunId_truthy w (reads svc) fd tm
             : truthy (Some (runId (make_feedback w (reads svc) fd tm))) = true).
    match goal with |- context [truthy (Some (runId ?fb))] =>
      rewrite (resolveRunId_truthy w _ fd None
               : truthy (Some (runId fb)) = true) end.
    by destruct (createFeedback cl _).
Qed.

(** The fields of a result and of the service it leaves. *)
Ltac fields :=
  cbn [submitted localId r_feedback r_runId feedbackId success
       pendingFeedback langsmithClient isInitialized reads
       set_reads set_pending].

(** X15. A result that is not submitted carries a local id under which the
    feedback it reports is pending; a submitted one carries the run id of
    its feedback and no local id, and the service then has a client.
    Pending feedback is never dropped. *)
Theorem collectFeedback_pending fuel w remote svc fd tm svc' res :
  collectFeedback (S (S fuel)) w remote svc fd tm = Some (svc', Return res) →
  (submitted res = false →
     ∃ lid, localId res = Some lid ∧ lid ≠ []
            ∧ pendingFeedback svc' !! lid = Some (r_feedback res))
  ∧ (submitted res = true →
     is_Some (langsmithClient svc')
     ∧ r_runId res = Some (runId (r_feedback res)) ∧ localId res = None)
  ∧ dom (pendingFeedback svc) ⊆ dom (pendingFeedback svc').
Proof.
  rewrite collectFeedback_fuel. cbn [collectFeedback].
  destruct (valid_rating (fd_starRating fd)) eqn:Hv; cbn [negb]; [|done].
  set (fb := make_feedback w (reads svc) fd tm).
  set (lid := local_id w (S (reads svc))).
  assert (Hrun : truthy (Some (runId fb)) = true) by apply resolveRunId_truthy.
  assert (Hlid : lid ≠ []) by done.
  assert (Hdom : ∀ id (f : feedback) (m : gmap str feedback),
            dom m ⊆ dom (<[id := f]> m)).
  { intros. rewrite dom_insert. set_solver. }
  clearbody fb lid. rewrite Hrun.
  destruct (langsmithClient svc) as [cl|] eqn:Hcl.
  - destruct (createFeedback cl _); intros [= <- <-]; fields.
    + rewrite Hcl. split; [done|]. split; [by eauto|done].
    + split; [|split; [done|by apply Hdom]]. intros _. exists lid.
      split; [done|]. split; [done|]. by rewrite lookup_insert_eq.
  - destruct (langsmithClient (initialize _ _ _)) as [cl|] eqn:Hcl'.
    + match goal with |- context [truthy (Some (runId ?fb'))] =>
        rewrite (resolveRunId_truthy w _ fd None
                 : truthy (Some (runId fb')) = true) end.
      destruct (createFeedback cl _); intros [= <- <-]; fields.
      * rewrite Hcl', initialize_pending. fields.
        split; [done|]. split; [by eauto|by apply Hdom].
      * rewrite initialize_pending. fields.
        split; [|split; [done|]].
        -- intros _. eexists. split; [done|]. split; [done|].
           by rewrite lookup_insert_eq.
        -- etrans; [|apply Hdom]. apply Hdom.
    + intros [= <- <-]; fields. rewrite initialize_pending. fields.
      split; [|split; [done|by apply Hdom]]. intros _. exists lid.
      split; [done|]. split; [done|]. by rewrite lookup_insert_eq.
Qed.

Lemma collectFeedback_pending_witness :
  let w := World None true None (λ _ _, 7) (λ _, lit "2025-07-17T19:24:37.309Z")
                 (λ _, 1752780277309) (λ _, lit "k3j9x0a1b") in
  let svc := Service (Some (Client (λ _, Rejected (lit "503")))) true ∅ 0 in
  let fd := FeedbackData (Some 4) (Some (lit "ok")) None None in
  ∃ svc' res lid,
    collectFeedback 2 w (Client (λ _, Rejected (lit "503"))) svc fd None
    = Some (svc', Return res)
    ∧ localId res = Some lid
    ∧ pendingFeedback svc' !! lid = Some (r_feedback res).
Proof.
  intros w svc fd.
  destruct (collectFeedback 2 w (Client (λ _, Rejected (lit "503"))) svc fd None)
    as [[svc' [res|e]]|] eqn:E; [|by vm_compute in E..].
  destruct (collectFeedback_pending 0 w _ svc fd None svc' res E)
    as (Hlocal & _ & _).
  destruct Hlocal as (lid & Hlid & _ & Hpending).
  { by vm_compute in E; injection E as <- <-. }
  by exists svc', res, lid.
Defined.

(** ** Replying to a rating *)

Lemma concat_replicate_singleton {A} n (x : A) :
  concat (replicate n [x]) = replicate n x.
Proof. induction n as [|n IH]; [done|]. cbn. by rewrite IH. Qed.

Lemma getStarEmoji_ok r :
  (0 <= r <= 5 →
     Feedback.getStarEmoji r
     = Return (replicate (Z.to_nat r) 11088 ++ replicate (Z.to_nat (5 - r)) 9734)
     ∧ ∀ stars, Feedback.getStarEmoji r = Return stars → length stars = 5%nat)
  ∧ (r < 0 ∨ 5 < r → ∃ e, Feedback.getStarEmoji r = Throw e).
Proof.
  unfold Feedback.getStarEmoji, repeat_string. split.
  - intros Hr. rewrite (proj2 (Z.ltb_ge r 0)), (proj2 (Z.ltb_ge (5 - r) 0)) by lia.
    rewrite !concat_replicate_singleton. split; [done|].
    intros stars [= <-]. rewrite length_app, !length_replicate. lia.
  - intros [Hr|Hr].
    + rewrite (proj2 (Z.ltb_lt r 0)) by lia. eauto.
    + rewrite (proj2 (Z.ltb_ge r 0)), (proj2 (Z.ltb_lt (5 - r) 0)) by lia. eauto.
Qed.

(** X16. For a count of stars from 0 to 5 [getStarEmoji] gives five code
    units, that many filled stars and then the empty ones; for any other
    count it throws, as [repeat] does on a negative count. *)
Theorem getStarEmoji_stars r :
  (0 <= r <= 5 →
     Feedback.getStarEmoji r
     = Return (replicate (Z.to_nat r) 11088 ++ replicate (Z.to_nat (5 - r)) 9734)
     ∧ Feedback.getStarEmoji r = Return (Cli.getStarEmoji r)
     ∧ length (Cli.getStarEmoji r) = 5%nat)
  ∧ (r < 0 ∨ 5 < r → ∃ e, Feedback.getStarEmoji r = Throw e).
Proof.
  split; [|apply getStarEmoji_ok]. intros Hr.
  destruct (proj1 (getStarEmoji_ok r) Hr) as [Heq Hlen].
  split; [done|]. split; [done|]. by apply Hlen.
Qed.

Lemma getStarEmoji_stars_witness :
  Feedback.getStarEmoji 4 = Return [11088; 11088; 11088; 11088; 9734].
Proof.
  destruct (getStarEmoji_stars 4) as [Hin _].
  destruct Hin as [-> _]; [lia|reflexivity].
Defined.

(** A valid rating is collected, as it was given. *)
Lemma collectFeedback_valid w remote svc fd tm :
  valid_rating (fd_starRating fd) = true →
  ∃ svc' res,
    collectFeedback 2 w remote svc fd tm = Some (svc', Return res)
    ∧ starRating (r_feedback res) = default 0 (fd_starRating fd)
    ∧ fb_comment (r_feedback res) = or_else (fd_comment fd) [].
Proof.
  intros Hv. cbn [collectFeedback]. rewrite Hv. cbn [negb].
  rewrite (resolveRunId_truthy w (reads svc) fd tm
           : truthy (Some (runId (make_feedback w (reads svc) fd tm))) = true).
  destruct (langsmithClient svc) as [cl|].
  - destruct (createFeedback cl _); by eexists _, _.
  - destruct (langsmithClient (initialize _ _ _)) as [cl|]; [|by eexists _, _].
    match goal with |- context [truthy (Some (runId ?fb'))] =>
      rewrite (resolveRunId_truthy w _ fd None
               : truthy (Some (runId fb')) = true) end.
    destruct (createFeedback cl _); by eexists _, _.
Qed.

(** X17. [processUserFeedback] succeeds exactly when [parseUserFeedback]
    reads a rating: it then reports that rating and comment, which are the
    ones of the feedback it has collected; otherwise it asks for the format
    and leaves the service as it was.  It has no other outcome. *)
Theorem processUserFeedback_parsed w remote svc input runId tm :
  match parseUserFeedback input with
  | Some p =>
      ∃ svc' sub msg fb,
        processUserFeedback w remote svc input runId tm
        = (svc', Processed sub (rating p) (comment p) msg fb)
        ∧ 1 <= rating p <= 5
        ∧ starRating fb = rating p ∧ fb_comment fb = comment p
  | None =>
      processUserFeedback w remote svc input runId tm
      = (svc, NotProcessed
                (lit "Please use format like '5', '4 stars', or '3 - comment'"))
  end.
Proof.
  unfold processUserFeedback.
  destruct (parseUserFeedback input) as [p|] eqn:Hp; [|done].
  apply parseUserFeedback_sound in Hp as [Hr _].
  rewrite (proj2 (Z.ltb_ge (rating p) 1)), (proj2 (Z.ltb_ge 5 (rating p))) by lia.
  cbn [orb]. unfold collectFeedbackWithContext.
  set (fd := FeedbackData (Some (rating p)) (Some (comment p)) None runId).
  assert (Hv : valid_rating (fd_starRating fd) = true) by by apply valid_rating_Some.
  assert (Hc : ∃ svc' res,
    match tm with
    | Some tm0 => collectFeedback 2 w remote svc fd (Some tm0)
    | None => collectFeedback 2 w remote svc fd None
    end = Some (svc', Return res)
    ∧ starRating (r_feedback res) = rating p
    ∧ fb_comment (r_feedback res) = comment p).
  { destruct tm as [tm0|];
      [destruct (collectFeedback_valid w remote svc fd (Some tm0) Hv)
         as (svc' & res & -> & Hs & Hcm)
      |destruct (collectFeedback_valid w remote svc fd None Hv)
         as (svc' & res & -> & Hs & Hcm)];
      exists svc', res; (split; [done|]); split; try done;
      rewrite Hcm; unfold or_else; cbn; by destruct (comment p). }
  destruct Hc as (svc' & res & -> & Hs & Hcm). cbn [default].
  destruct (proj1 (getStarEmoji_ok (rating p)) ltac:(lia)) as [-> _].
  by eexists _, _, _, _.
Qed.

(** ** The feedback dialogue *)

(** The rating step: the flags move on exactly when a rating is read. *)
Lemma rating_step_spec t input st :
  rating_step t input st
  = (match parseUserFeedback input with
     | Some p =>
         set_flags false true (Some (rating p))
           (set_service (initialize (t_world t) (t_remote t) (feedbackService st)) st)
     | None =>
         set_service (initialize (t_world t) (t_remote t) (feedbackService st)) st
     end, Return ()).
Proof.
  unfold rating_step. destruct (parseUserFeedback input) as [p|] eqn:Hp; [|done].
  apply parseUserFeedback_sound in Hp as [Hr _].
  by rewrite (proj2 (Z.leb_le 1 (rating p))), (proj2 (Z.leb_le (rating p) 5)) by lia.
Qed.

(** The comment step: with a rating from 1 to 5 pending, the feedback is
    collected and answered. *)
Lemma comment_step_spec t input st r :
  pendingRating st = Some r → 1 <= r <= 5 →
  ∃ svc' reply,
    comment_step t input st
    = (set_flags false false None
         (push (AIMessage (Cli.getStarEmoji r ++ reply)) (set_service svc' st)),
       Return ()).
Proof.
  intros Hr Hrange. unfold comment_step, collect, collectFeedbackWithContext.
  rewrite Hr.
  destruct (collectFeedback_valid (t_world t) (t_remote t)
              (initialize (t_world t) (t_remote t) (feedbackService st))
              (FeedbackData (Some r) (Some (trim input)) (Some (lit "user_rating")) None)
              (Some (t_threadManager t))) as (svc' & res & -> & _);
    [by apply valid_rating_Some|].
  cbn [default]. by eexists _, _.
Qed.

(** X18. While a rating is awaited, an input is kept as a human message and
    nothing is asked of the workflow: an input in which no rating is read
    leaves the interface waiting, one in which a rating is read makes it wait
    for the comment, with that rating pending. *)
Theorem processUserInput_awaits_rating t input st :
  isWaitingForComment st = false → isWaitingForFeedback st = true →
  currentMessages (processUserInput t input st)
  = currentMessages st ++ [HumanMessage input]
  ∧ match parseUserFeedback input with
    | Some p =>
        isWaitingForFeedback (processUserInput t input st) = false
        ∧ isWaitingForComment (processUserInput t input st) = true
        ∧ pendingRating (processUserInput t input st) = Some (rating p)
    | None =>
        isWaitingForFeedback (processUserInput t input st) = true
        ∧ isWaitingForComment (processUserInput t input st) = false
        ∧ pendingRating (processUserInput t input st) = pendingRating st
    end.
Proof.
  intros Hc Hf. unfold processUserInput.
  cbn [push isWaitingForComment isWaitingForFeedback]. rewrite Hc, Hf.
  rewrite rating_step_spec. by destruct (parseUserFeedback input).
Qed.

Lemma processUserInput_awaits_rating_witness :
  let w := World None true None (λ _ _, 7) (λ _, []) (λ _, 0) (λ _, []) in
  let t := Turn w (Client (λ _, Resolved None)) true true
                (ThreadManager (Some (lit "thread-1752780277309")))
                (Invocation 1200 (Return (lit "ok"))) None in
  let st := CLI [] true false None true new_service in
  isWaitingForFeedback (processUserInput t (lit "great, thanks") st) = true
  ∧ pendingRating (processUserInput t (lit "4 stars") st) = Some 4.
Proof.
  intros w t st.
  pose proof (processUserInput_awaits_rating t (lit "great, thanks") st
                eq_refl eq_refl) as [_ H1].
  pose proof (processUserInput_awaits_rating t (lit "4 stars") st
                eq_refl eq_refl) as [_ H2].
  assert (E1 : parseUserFeedback (lit "great, thanks") = None)
    by (vm_compute; reflexivity).
  assert (E2 : parseUserFeedback (lit "4 stars") = Some (Parsed 4 []))
    by (vm_compute; reflexivity).
  rewrite E1 in H1. rewrite E2 in H2.
  destruct H1 as (H1 & _). destruct H2 as (_ & _ & H2). by split.
Defined.

(** X19. When the comment is awaited with a rating from 1 to 5 pending, any
    input ends the dialogue: the flags are reset, and the conversation gains
    the input and a reply that begins with the stars of the rating, whether
    the feedback could be submitted or not. *)
Theorem processUserInput_takes_comment t input st r :
  isWaitingForComment st = true → pendingRating st = Some r → 1 <= r <= 5 →
  isWaitingForFeedback (processUserInput t input st) = false
  ∧ isWaitingForComment (processUserInput t input st) = false
  ∧ pendingRating (processUserInput t input st) = None
  ∧ ∃ reply,
      currentMessages (processUserInput t input st)
      = currentMessages st ++ [HumanMessage input; AIMessage reply]
      ∧ starts_with (Cli.getStarEmoji r) reply = true.
Proof.
  intros Hc Hr Hrange. unfold processUserInput.
  cbn [push isWaitingForComment]. rewrite Hc.
  match goal with |- context [comment_step t input ?st1] =>
    destruct (comment_step_spec t input st1 r Hr Hrange) as (svc' & reply & ->)
  end.
  split; [done|]. split; [done|]. split; [done|].
  exists (Cli.getStarEmoji r ++ reply). split; [|apply starts_with_app].
  cbn. by rewrite <-app_assoc.
Qed.

Lemma processUserInput_takes_comment_witness :
  let w := World None true None (λ _ _, 7) (λ _, []) (λ _, 0) (λ _, []) in
  let t := Turn w (Client (λ _, Resolved None)) true true
                (ThreadManager (Some (lit "thread-1752780277309")))
                (Invocation 1200 (Return (lit "ok"))) None in
  let st := CLI [] false true (Some 4) true new_service in
  isWaitingForComment (processUserInput t (lit "") st) = false.
Proof.
  intros w t st.
  by destruct (processUserInput_takes_comment t (lit "") st 4) as (_ & ? & _);
    [reflexivity|reflexivity|lia|].
Defined.

(** X20. The whole dialogue: a response that asks to [Rate this response],
    then an input in which a rating is read, then any input as the comment,
    bring an idle interface back to idle.  The conversation has gained the
    three inputs, the response and the reply to the rating; the rating
    itself is acknowledged on the screen only. *)
Theorem feedback_dialogue t1 t2 t3 question response text p cm st :
  isWaitingForFeedback st = false → isWaitingForComment st = false →
  processMessageWithThread (t_app_isInitialized t1) (t_threadManager_isReady t1)
    (t_workflow t1) = Return response →
  includes response (lit "Rate this response") = true →
  parseUserFeedback text = Some p →
  let st' := processUserInput t3 cm
               (processUserInput t2 text (processUserInput t1 question st)) in
  isWaitingForFeedback st' = false ∧ isWaitingForComment st' = false
  ∧ pendingRating st' = None
  ∧ ∃ reply,
      currentMessages st'
      = currentMessages st
        ++ [HumanMessage question; AIMessage response; HumanMessage text;
            HumanMessage cm; AIMessage reply]
      ∧ starts_with (Cli.getStarEmoji (rating p)) reply = true.
Proof.
  intros Hf Hc Hret Hrate Hp st'. subst st'.
  pose proof (parseUserFeedback_sound _ _ Hp) as [Hr _].
  assert (H1 : processUserInput t1 question st
               = push (AIMessage response)
                   (set_flags true false (pendingRating st)
                      (push (HumanMessage question) st))).
  { unfold processUserInput, workflow_step.
    cbn [push isWaitingForComment isWaitingForFeedback].
    by rewrite Hc, Hf, Hret, Hrate. }
  rewrite H1. clear H1.
  set (st1 := push (AIMessage response) _).
  assert (H2 : ∃ svc2, processUserInput t2 text st1
                 = set_flags false true (Some (rating p))
                     (set_service svc2 (push (HumanMessage text) st1))).
  { unfold processUserInput.
    cbn [st1 push set_flags isWaitingForComment isWaitingForFeedback].
    rewrite rating_step_spec, Hp. by eexists. }
  destruct H2 as [svc2 ->].
  set (st2 := set_flags false true _ _).
  unfold processUserInput.
  destruct (comment_step_spec t3 cm (push (HumanMessage cm) st2) (rating p)
              eq_refl Hr) as (svc3 & reply & Hstep).
  cbn [st2 push set_flags set_service isWaitingForComment]. 
  cbn [st2 push set_flags set_service] in Hstep. rewrite Hstep.
  split; [done|]. split; [done|]. split; [done|].
  exists (Cli.getStarEmoji (rating p) ++ reply). split; [|apply starts_with_app].
  cbn. by rewrite <-!app_assoc.
Qed.

Lemma feedback_dialogue_witness :
  let w := World None true None (λ _ _, 7) (λ _, []) (λ _, 0) (λ _, []) in
  let t := Turn w (Client (λ _, Resolved None)) true true
                (ThreadManager (Some (lit "thread-1752780277309")))
                (Invocation 1200 (Return (lit "Done. Rate this response (1-5):")))
                None in
  let st' := processUserInput t (lit "too slow")
               (processUserInput t (lit "3 stars")
                  (processUserInput t (lit "list the funders") new_cli)) in
  isWaitingForFeedback st' = false ∧ isWaitingForComment st' = false
  ∧ pendingRating st' = None.
Proof.
  intros w t.
  destruct (feedback_dialogue t t t (lit "list the funders")
              (lit "Done. Rate this response (1-5):") (lit "3 stars")
              (Parsed 3 []) (lit "too slow") new_cli)
    as (H1 & H2 & H3 & _); try reflexivity.
  by split; [|split].
Defined.

(** ** Numbers as text *)

(** The first character of a number's digits, and of what precedes them. *)
Lemma pretty_N_go_head (P : ascii → Prop) x s :
  (∀ d, P (pretty.pretty_N_char d)) →
  match s with String a _ => P a | EmptyString => (0 < x)%N end →
  match pretty.pretty_N_go x s with String a _ => P a | EmptyString => False end.
Proof.
  intros Hd. revert s. induction (N.lt_wf_0 x) as [x _ IH]; intros s Hs.
  destruct (decide (x = 0)%N) as [->|Hx].
  - rewrite pretty.pretty_N_go_0. destruct s; [lia|done].
  - rewrite pretty.pretty_N_go_step by lia.
    apply IH; [apply N.div_lt; lia|apply Hd].
Qed.

(** The text of an integer begins with a digit or with the minus sign. *)
Lemma of_int_head n :
  ∃ c s, of_int n = c :: s ∧ (is_digit c = true ∨ c = 45).
Proof.
  assert (Hdigit : ∀ d, is_digit (Z.of_nat (nat_of_ascii (pretty.pretty_N_char d))) = true).
  { intros d. unfold pretty.pretty_N_char. by repeat case_match. }
  assert (HN : ∀ x : N, ∃ a s, pretty.pretty x = String a s
                 ∧ is_digit (Z.of_nat (nat_of_ascii a)) = true).
  { intros x. unfold pretty.pretty, pretty.pretty_N.
    destruct (decide (x = 0)%N) as [->|Hx]; [by eexists _, _|].
    pose proof (pretty_N_go_head
      (λ a, is_digit (Z.of_nat (nat_of_ascii a)) = true) x "" Hdigit) as H.
    destruct (pretty.pretty_N_go x ""); [destruct H; lia|].
    eexists _, _. split; [done|]. apply H. lia. }
  destruct n as [|p|p].
  - eexists _, _. split; [reflexivity|]. by left.
  - destruct (HN (N.pos p)) as (a & s & Heq & Ha).
    change (of_int (Z.pos p)) with (lit (pretty.pretty (N.pos p))).
    rewrite Heq. eexists _, _. split; [reflexivity|]. by left.
  - eexists _, _. split; [reflexivity|]. by right.
Qed.

Lemma of_int_truthy n : truthy (Some (of_int n)) = true.
Proof. by destruct (of_int_head n) as (c & s & -> & _). Qed.

Lemma of_int_not_thread n threadId :
  starts_with (lit "thread-") threadId = true → of_int n ≠ threadId.
Proof.
  intros Hs <-. destruct (of_int_head n) as (c & s & Heq & Hc).
  rewrite Heq in Hs. cbn in Hs. apply andb_true_iff in Hs as [Hc' _].
  apply Z.eqb_eq in Hc'. subst c. by destruct Hc.
Qed.

(** ** Saving and restoring the conversation *)

Import Manager.

Lemma saveConversation_new d file m :
  currentMessages m ≠ [] → currentConversationId m = None →
  saveConversation d file m
  = ((addConversation d file (currentMessages m) None).1,
     ConversationManager (currentMessages m) (Some (of_int (Date_now d)))).
Proof.
  intros Hne Hid. unfold saveConversation. rewrite Hid.
  by destruct (currentMessages m).
Qed.

Lemma saveConversation_known d file msgs n :
  msgs ≠ [] →
  saveConversation d file (ConversationManager msgs (Some (of_int n)))
  = ((updateConversation d file (of_int n) msgs).1,
     ConversationManager msgs (Some (of_int n))).
Proof.
  intros Hne. unfold saveConversation.
  cbn [currentMessages currentConversationId]. rewrite of_int_truthy.
  by destruct msgs.
Qed.

(** X21. Saving a new conversation gives it the id of its entry in the
    store, and saving it again rewrites that entry: the store lists the same
    conversations as after the first save, the first of them with the
    messages of the manager. *)
Theorem saveConversation_twice d1 d2 file m :
  writes d1 = true → writes d2 = true →
  currentMessages m ≠ [] → currentConversationId m = None →
  let s1 := saveConversation d1 file m in
  let s2 := saveConversation d2 s1.1 s1.2 in
  currentConversationId s1.2 = Some (of_int (Date_now d1))
  ∧ s2.2 = s1.2
  ∧ conv_id <$> loadConversations s1.1
    = take maxHistorySize
        (of_int (Date_now d1) :: (conv_id <$> loadConversations file))
  ∧ conv_id <$> loadConversations s2.1 = conv_id <$> loadConversations s1.1
  ∧ ∃ conv, getRecentConversation s2.1 = Some conv
            ∧ conv_id conv = of_int (Date_now d1)
            ∧ content_of <$> messages conv = content_of <$> currentMessages m.
Proof.
  intros Hw1 Hw2 Hne Hid s1 s2. subst s2 s1.
  rewrite saveConversation_new by done. cbn [fst snd].
  rewrite saveConversation_known by done. cbn [fst snd].
  split; [done|]. split; [done|].
  set (file1 := (addConversation d1 file (currentMessages m) None).1).
  assert (Hl1 : loadConversations file1
    = map_messages (deserializeMessage ∘ serializeMessage (iso d1))
        <$> take maxHistorySize
              (Conversation (of_int (Date_now d1))
                 (generateTitle (locale d1) (currentMessages m))
                 (currentMessages m) (iso d1) (iso d1) :: loadConversations file))
    by by apply addConversation_loaded.
  change maxHistorySize with (S 99) in Hl1. cbn [take fmap list_fmap] in Hl1.
  split. { rewrite Hl1. cbn [fmap list_fmap conv_id map_messages].
           change maxHistorySize with (S 99). cbn [take]. f_equal.
           by rewrite <-list_fmap_compose, fmap_take. }
  match type of Hl1 with _ = ?new :: ?rest =>
    destruct (updateConversation_loaded d2 file1 (of_int (Date_now d1))
                (currentMessages m) 0 new Hw2) as [_ Hl2]
  end.
  { rewrite Hl1. cbn [list_find]. by rewrite decide_True. }
  rewrite Hl1 in Hl2 |- *. cbn [insert list_insert fmap list_fmap] in Hl2.
  unfold getRecentConversation. rewrite Hl2.
  split.
  { cbn [fmap list_fmap conv_id map_messages]. f_equal.
    rewrite <-list_fmap_compose. by apply list_fmap_ext. }
  eexists. split; [done|]. split; [done|].
  cbn [messages map_messages]. apply contents_round_trip.
Qed.

Lemma saveConversation_twice_witness :
  let d := Disk 1752780277309 (lit "2025-07-17T19:24:37.309Z")
                (lit "7/17/2025, 7:24:37 PM") true in
  let m := ConversationManager [HumanMessage (lit "hi")] None in
  conv_id <$> loadConversations
                (saveConversation d (saveConversation d None m).1
                                    (saveConversation d None m).2).1
  = conv_id <$> loadConversations (saveConversation d None m).1.
Proof.
  intros d m.
  by destruct (saveConversation_twice d d None m) as (_ & _ & _ & ? & _).
Defined.

(** X22. A conversation whose first save could not be written is not saved
    later either: the manager has taken the id of the entry that was not
    written, and every later save looks for that entry, finds none and
    leaves the file as it is. *)
Theorem saveConversation_after_failed_write d1 d2 file m :
  writes d1 = false →
  currentMessages m ≠ [] → currentConversationId m = None →
  getConversationById file (of_int (Date_now d1)) = None →
  (saveConversation d1 file m).1 = file
  ∧ currentConversationId (saveConversation d1 file m).2
    = Some (of_int (Date_now d1))
  ∧ ∀ msgs,
      (saveConversation d2 file
         (ConversationManager msgs
            (currentConversationId (saveConversation d1 file m).2))).1
      = file.
Proof.
  intros Hw Hne Hid Hnone. rewrite saveConversation_new by done. cbn [fst snd].
  split. { unfold addConversation, saveConversations, save. by rewrite Hw. }
  split; [done|]. intros msgs. cbn [currentConversationId].
  destruct msgs as [|x msgs]; [done|].
  rewrite saveConversation_known by done. cbn [fst].
  unfold getConversationById in Hnone. unfold updateConversation.
  by destruct (list_find _ _) as [[i conv]|].
Qed.

Lemma saveConversation_after_failed_write_witness :
  let d1 := Disk 1752780277309 (lit "2025-07-17T19:24:37.309Z")
                 (lit "7/17/2025, 7:24:37 PM") false in
  let d2 := Disk 1752780290000 (lit "2025-07-17T19:24:50.000Z")
                 (lit "7/17/2025, 7:24:50 PM") true in
  let m := ConversationManager [HumanMessage (lit "hi")] None in
  (saveConversation d2 None
     (ConversationManager [HumanMessage (lit "hi"); AIMessage (lit "hello")]
        (currentConversationId (saveConversation d1 None m).2))).1
  = None.
Proof.
  intros d1 d2 m.
  by destruct (saveConversation_after_failed_write d1 d2 None m)
    as (_ & _ & ->).
Defined.

(** X23. What [saveConversation] has written is what
    [restoreRecentConversation] brings back in a new session, unless the
    user answers n: the id of the conversation and the contents of its
    messages in their order. *)
Theorem restore_after_save d file m answer :
  writes d = true →
  currentMessages m ≠ [] → currentConversationId m = None →
  Cli.to_lower <$> answer ≠ lit "n" →
  let saved := saveConversation d file m in
  let restored := restoreRecentConversation answer saved.1 new_manager in
  restored.2 = true
  ∧ currentConversationId restored.1 = currentConversationId saved.2
  ∧ content_of <$> currentMessages restored.1
    = content_of <$> currentMessages m.
Proof.
  intros Hw Hne Hid Hans saved restored. subst restored saved.
  rewrite saveConversation_new by done. cbn [fst snd].
  unfold restoreRecentConversation, getRecentConversation.
  rewrite addConversation_loaded by done.
  change maxHistorySize with (S 99). cbn [take fmap list_fmap head].
  cbn [messages map_messages conv_id].
  rewrite (bool_decide_eq_true_2 _ Hans).
  destruct (currentMessages m) as [|x msgs] eqn:E; [done|].
  cbn [fmap list_fmap]. cbn [fst snd currentConversationId currentMessages].
  split; [done|]. split; [done|].
  apply (contents_round_trip (iso d) (x :: msgs)).
Qed.

Lemma restore_after_save_witness :
  let d := Disk 1752780277309 (lit "2025-07-17T19:24:37.309Z")
                (lit "7/17/2025, 7:24:37 PM") true in
  let m := ConversationManager [HumanMessage (lit "hi"); AIMessage (lit "hello")] None in
  content_of <$>
    currentMessages
      (restoreRecentConversation (lit "y") (saveConversation d None m).1
                                 new_manager).1
  = [lit "hi"; lit "hello"].
Proof.
  intros d m.
  by destruct (restore_after_save d None m (lit "y")) as (_ & _ & ->).
Defined.

(** X28. [clearConversation] saves before it forgets: a new conversation
    that has messages is the most recent one of the store afterwards, with
    the contents of its messages, and the manager is empty and without id;
    an empty conversation is cleared without touching the file. *)
Theorem clearConversation_saves d file m :
  (currentMessages m = [] → clearConversation d file m = (file, new_manager))
  ∧ (writes d = true → currentMessages m ≠ [] → currentConversationId m = None →
     (clearConversation d file m).2 = new_manager
     ∧ ∃ conv, getRecentConversation (clearConversation d file m).1 = Some conv
               ∧ conv_id conv = of_int (Date_now d)
               ∧ content_of <$> messages conv = content_of <$> currentMessages m).
Proof.
  unfold clearConversation. split.
  - by intros ->.
  - intros Hw Hne Hid. split; [done|]. cbn [fst].
    rewrite saveConversation_new by done. cbn [fst].
    destruct (currentMessages m) as [|x msgs] eqn:E; [done|]. cbn [length Nat.ltb Nat.leb].
    unfold getRecentConversation. rewrite addConversation_loaded by done.
    change maxHistorySize with (S 99). cbn [take fmap list_fmap head].
    eexists. split; [done|]. split; [done|].
    apply (contents_round_trip (iso d) (x :: msgs)).
Qed.

Lemma clearConversation_saves_witness :
  let d := Disk 1752780277309 (lit "2025-07-17T19:24:37.309Z")
                (lit "7/17/2025, 7:24:37 PM") true in
  let m := ConversationManager [HumanMessage (lit "hi")] None in
  (clearConversation d None m).2 = new_manager
  ∧ clearConversation d None new_manager = (None, new_manager).
Proof.
  intros d m.
  destruct (clearConversation_saves d None m) as [_ Hsave].
  destruct (clearConversation_saves d None new_manager) as [Hempty _].
  split; [by apply Hsave|by apply Hempty].
Defined.

(** ** Threads *)

Lemma getConversationById_None file conversationId :
  getConversationById file conversationId = None
  ↔ Forall (λ conv, conv_id conv ≠ conversationId) (loadConversations file).
Proof.
  unfold getConversationById. rewrite fmap_None. apply list_find_None.
Qed.

(** A conversation added under a title is not found under an id it was not
    given when no stored conversation has that id. *)
Lemma getConversationById_added d file msgs ttl conversationId :
  writes d = true →
  of_int (Date_now d) ≠ conversationId →
  getConversationById file conversationId = None →
  getConversationById (addConversation d file msgs ttl).1 conversationId = None.
Proof.
  intros Hw Hne Hnone. apply getConversationById_None.
  apply getConversationById_None in Hnone.
  rewrite addConversation_loaded by done. apply Forall_fmap.
  change maxHistorySize with (S 99). cbn [take]. apply Forall_cons. split; [done|].
  apply Forall_take. eapply Forall_impl; [exact Hnone|]. by intros [].
Qed.

Lemma thread_title_truthy threadId :
  truthy (Some (lit "Thread: " ++ threadId)) = true.
Proof. done. Qed.

(** X24. A thread that [saveToLocalStore] has written is found again by
    [switchToSpecificThread] through its title: the manager gets the two
    messages and the id of the stored conversation, and that id, not the
    thread id asked for, becomes the current thread of the thread manager. *)
Theorem switch_to_saved_thread d d' history file m threadId userMessage aiResponse :
  writes d = true →
  starts_with (lit "thread-") threadId = true →
  getConversationById file threadId = None →
  let saved := saveToLocalStore d file userMessage aiResponse threadId in
  let sw := switchToSpecificThread d' history saved m threadId in
  sw_file sw = saved
  ∧ currentMessages (sw_manager sw)
    = [HumanMessage userMessage; AIMessage aiResponse]
  ∧ currentConversationId (sw_manager sw) = Some (of_int (Date_now d))
  ∧ sw_currentThreadId sw = of_int (Date_now d).
Proof.
  intros Hw Hthread Hnone saved sw. subst sw. unfold switchToSpecificThread.
  assert (Hid : getConversationById saved threadId = None).
  { apply getConversationById_added; [done| |done]. by apply of_int_not_thread. }
  rewrite Hid, Hthread. unfold getAllConversations, saved, saveToLocalStore.
  rewrite addConversation_loaded by done.
  change maxHistorySize with (S 99). cbn [take fmap list_fmap].
  rewrite thread_title_truthy. cbn [default list_find title map_messages].
  rewrite decide_True by done. done.
Qed.

Lemma switch_to_saved_thread_witness :
  let d := Disk 1752780277309 (lit "2025-07-17T19:24:37.309Z")
                (lit "7/17/2025, 7:24:37 PM") true in
  let saved := saveToLocalStore d None (lit "hi") (lit "hello")
                                (lit "thread-1752780200000") in
  sw_currentThreadId
    (switchToSpecificThread d (λ _, []) saved new_manager
                            (lit "thread-1752780200000"))
  = of_int 1752780277309.
Proof.
  intros d saved.
  pose proof (switch_to_saved_thread d d (λ _, []) None new_manager
                (lit "thread-1752780200000") (lit "hi") (lit "hello")
                eq_refl eq_refl eq_refl) as (_ & _ & _ & H).
  exact H.
Defined.

(** X25. Switching to a thread that is neither in the store, by id or by
    title, nor known to LangSmith leaves the file and the conversation as
    they are, but the thread asked for is the current thread from then on. *)
Theorem switch_to_unknown_thread d history file m threadId :
  getConversationById file threadId = None →
  Forall (λ conv, title conv ≠ lit "Thread: " ++ threadId)
         (loadConversations file) →
  history threadId = [] →
  switchToSpecificThread d history file m threadId = Switched file m threadId.
Proof.
  intros Hid Htitle Hh. unfold switchToSpecificThread, getAllConversations.
  rewrite Hid.
  apply (list_find_None (λ conv : conversation message,
                           title conv = lit "Thread: " ++ threadId)) in Htitle.
  rewrite Htitle.
  cbn [fmap option_fmap option_map]. destruct (starts_with _ _); cbn [fst snd];
    by rewrite Hh.
Qed.

Lemma switch_to_unknown_thread_witness :
  let d := Disk 1752780277309 (lit "2025-07-17T19:24:37.309Z")
                (lit "7/17/2025, 7:24:37 PM") true in
  sw_currentThreadId
    (switchToSpecificThread d (λ _, []) None new_manager (lit "thread-1"))
  = lit "thread-1".
Proof.
  intros d.
  rewrite (switch_to_unknown_thread d (λ _, []) None new_manager (lit "thread-1"));
    [reflexivity | reflexivity | constructor | reflexivity].
Defined.

Lemma content_of_history msg : content_of (of_history msg) = h_content msg.
Proof. unfold of_history. by repeat case_match. Qed.

(** What [switchToSpecificThread] does with a thread that only LangSmith
    knows. *)
Lemma switch_remote d history file m threadId :
  getConversationById file threadId = None →
  Forall (λ conv, title conv ≠ lit "Thread: " ++ threadId)
         (loadConversations file) →
  history threadId ≠ [] →
  switchToSpecificThread d history file m threadId
  = Switched (addConversation d file (of_history <$> history threadId)
                              (Some (lit "Thread: " ++ threadId))).1
             (ConversationManager (of_history <$> history threadId) (Some threadId))
             threadId.
Proof.
  intros Hid Htitle Hh. unfold switchToSpecificThread, getAllConversations.
  rewrite Hid.
  apply (list_find_None (λ conv : conversation message,
                           title conv = lit "Thread: " ++ threadId)) in Htitle.
  rewrite Htitle. cbn [fmap option_fmap option_map].
  destruct (starts_with _ _); cbn [fst snd]; by destruct (history threadId).
Qed.

(** X26. Switching to a thread that only LangSmith knows loads its history
    into the manager under the thread id, makes the thread current, and
    stores the history as a new conversation titled after the thread, whose
    id in the store is a new one. *)
Theorem switch_to_remote_thread d history file m threadId :
  writes d = true →
  getConversationById file threadId = None →
  Forall (λ conv, title conv ≠ lit "Thread: " ++ threadId)
         (loadConversations file) →
  history threadId ≠ [] →
  let sw := switchToSpecificThread d history file m threadId in
  sw_currentThreadId sw = threadId
  ∧ currentConversationId (sw_manager sw) = Some threadId
  ∧ content_of <$> currentMessages (sw_manager sw)
    = h_content <$> history threadId
  ∧ ∃ conv, getRecentConversation (sw_file sw) = Some conv
            ∧ title conv = lit "Thread: " ++ threadId
            ∧ conv_id conv = of_int (Date_now d)
            ∧ content_of <$> messages conv = h_content <$> history threadId.
Proof.
  intros Hw Hid Htitle Hh sw. subst sw. rewrite switch_remote by done.
  cbn [sw_currentThreadId sw_manager sw_file currentConversationId currentMessages].
  assert (Hc : content_of <$> (of_history <$> history threadId)
               = h_content <$> history threadId).
  { rewrite <-list_fmap_compose. apply list_fmap_ext. intros _ msg _.
    apply content_of_history. }
  split; [done|]. split; [done|]. split; [done|].
  unfold getRecentConversation. rewrite addConversation_loaded by done.
  change maxHistorySize with (S 99). cbn [take fmap list_fmap head].
  eexists. split; [done|]. rewrite thread_title_truthy.
  split; [done|]. split; [done|].
  cbn [messages map_messages]. by rewrite contents_round_trip.
Qed.

Lemma switch_to_remote_thread_witness :
  let d := Disk 1752780277309 (lit "2025-07-17T19:24:37.309Z")
                (lit "7/17/2025, 7:24:37 PM") true in
  let history := λ _ : str, [HistoryMessage (lit "user") (lit "hi") None;
                              HistoryMessage (lit "assistant") (lit "hello") None] in
  content_of <$>
    currentMessages
      (sw_manager (switchToSpecificThread d history None new_manager
                                          (lit "thread-1752780200000")))
  = [lit "hi"; lit "hello"].
Proof.
  intros d history.
  pose proof (switch_to_remote_thread d history None new_manager
                (lit "thread-1752780200000") eq_refl eq_refl
                (Forall_nil_2 _)) as H.
  destruct H as (_ & _ & H & _); [done|exact H].
Defined.

(** X27. The conversation of such a thread is not saved by the manager: the
    manager holds the thread id, the store has the conversation under
    another id, and every [saveConversation] looks for the thread id, finds
    nothing and leaves the file as it is. *)
Theorem remote_thread_not_saved d d' history file m threadId msgs :
  writes d = true →
  starts_with (lit "thread-") threadId = true →
  getConversationById file threadId = None →
  Forall (λ conv, title conv ≠ lit "Thread: " ++ threadId)
         (loadConversations file) →
  history threadId ≠ [] →
  let sw := switchToSpecificThread d history file m threadId in
  (saveConversation d' (sw_file sw)
     (ConversationManager msgs (currentConversationId (sw_manager sw)))).1
  = sw_file sw.
Proof.
  intros Hw Hthread Hid Htitle Hh sw. subst sw. rewrite switch_remote by done.
  cbn [sw_manager sw_file currentConversationId].
  unfold saveConversation. cbn [currentMessages currentConversationId].
  destruct msgs as [|x msgs]; [done|].
  assert (Ht : truthy (Some threadId) = true) by by destruct threadId.
  rewrite Ht. cbn [default].
  pose proof (getConversationById_added d file (of_history <$> history threadId)
                (Some (lit "Thread: " ++ threadId)) threadId Hw
                (of_int_not_thread _ _ Hthread) Hid) as Hnone.
  unfold getConversationById in Hnone. unfold updateConversation.
  by destruct (list_find _ _) as [[i conv]|].
Qed.

Lemma remote_thread_not_saved_witness :
  let d := Disk 1752780277309 (lit "2025-07-17T19:24:37.309Z")
                (lit "7/17/2025, 7:24:37 PM") true in
  let history := λ _ : str, [HistoryMessage (lit "user") (lit "hi") None] in
  let sw := switchToSpecificThread d history None new_manager
                                   (lit "thread-1752780200000") in
  (saveConversation d (sw_file sw)
     (ConversationManager [HumanMessage (lit "hi"); HumanMessage (lit "more")]
        (currentConversationId (sw_manager sw)))).1
  = sw_file sw.
Proof.
  intros d history.
  apply (remote_thread_not_saved d d history None new_manager
           (lit "thread-1752780200000")); try reflexivity; [constructor|done].
Defined.

(** X29. A thread id made by [createThread] is never taken for a run id: it
    begins with "thread-", which the UUID pattern refuses, so the feedback of
    such a thread gets a fresh run id when no trace is active. *)
Theorem created_thread_is_no_run_id now w n :
  ∃ threadId,
    createThread true now None = Return threadId
    ∧ starts_with (lit "thread-") threadId = true
    ∧ test uuidRegex threadId = false
    ∧ (getCurrentRunId w = None →
       getRunIdFromContext w n (Some (ThreadManager (Some threadId)))
       = generateUUID (random16 w n)).
Proof.
  exists (lit "thread-" ++ of_int now).
  assert (Hno : test uuidRegex (lit "thread-" ++ of_int now) = false).
  { destruct (test uuidRegex _) eqn:E; [|done].
    apply test_uuidRegex in E. unfold in_classes, uuid_classes in E.
    cbn [replicate app lit] in E. norm_lits. cbn [app] in E.
    apply Forall2_cons_1 in E as [E _]. by vm_compute in E. }
  split; [done|]. split; [done|]. split; [done|].
  intros Hrun. unfold getRunIdFromContext. rewrite Hrun.
  cbn [truthy currentThreadId default]. unfold id. rewrite Hno.
  by destruct (lit "thread-" ++ of_int now).
Qed.

Lemma created_thread_is_no_run_id_witness :
  let w := World None true None (λ _ i, Z.of_nat i mod 16) (λ _, [])
                 (λ _, 0) (λ _, []) in
  ∃ threadId,
    createThread true 1752780277309 None = Return threadId
    ∧ getRunIdFromContext w 0 (Some (ThreadManager (Some threadId)))
      = generateUUID (random16 w 0).
Proof.
  intros w.
  destruct (created_thread_is_no_run_id 1752780277309 w 0)
    as (threadId & Hmade & _ & _ & Hfresh).
  exists threadId. split; [exact Hmade|]. by apply Hfresh.
Defined.
